(** * updateCursor: a shallow embedding of the version model, the audit
    ledger, the version resolver and the update orchestrator.

    Go strings are byte strings; they are modelled as Stdlib [string]
    (a list of 8-bit [ascii] characters).  Go [int] is 64-bit and is
    modelled as [Z] with the range checks the library performs. *)

From Stdlib Require Import String Ascii ZArith List Bool Lia.
Import ListNotations.
Open Scope Z_scope.
Open Scope list_scope.

(* ------------------------------------------------------------------ *)
(** ** Byte-string helpers (Go [strings] package) *)

Module Str.

Local Open Scope string_scope.

(** [strings.HasPrefix] followed by slicing: [Some rest] when [s = p ++ rest]. *)
Fixpoint strip_prefix (p s : string) : option string :=
  match p, s with
  | EmptyString, _ => Some s
  | String c p', String d s' => if Ascii.eqb c d then strip_prefix p' s' else None
  | String _ _, EmptyString => None
  end.

Definition rev_str (s : string) : string :=
  string_of_list_ascii (rev (list_ascii_of_string s)).

(** [strings.HasSuffix] followed by slicing: [Some front] when [s = front ++ p]. *)
Definition strip_suffix (p s : string) : option string :=
  option_map rev_str (strip_prefix (rev_str p) (rev_str s)).

(** [strings.Split(s, string(sep))] for a one-byte separator: the pieces
    between separators, [[""]] for the empty string. *)
Fixpoint split_on (sep : ascii) (s : string) : list string :=
  match s with
  | EmptyString => [EmptyString]
  | String c s' =>
      if Ascii.eqb c sep then EmptyString :: split_on sep s'
      else match split_on sep s' with
           | w :: ws => String c w :: ws
           | [] => [String c EmptyString]
           end
  end.

(** [strings.Contains(s, string(c))] for one byte. *)
Fixpoint contains_char (c : ascii) (s : string) : bool :=
  match s with
  | EmptyString => false
  | String d s' => Ascii.eqb c d || contains_char c s'
  end.

(** [strings.Contains(s, sub)]. *)
Fixpoint contains (sub s : string) : bool :=
  match strip_prefix sub s with
  | Some _ => true
  | None => match s with
            | EmptyString => false
            | String _ s' => contains sub s'
            end
  end.

(** [strings.ReplaceAll(s, old, new)] for a non-empty [old]: scan left to
    right, replacing every non-overlapping occurrence. *)
Fixpoint replace_all_fuel (fuel : nat) (old new s : string) : string :=
  match fuel with
  | O => s
  | S fuel' =>
      match strip_prefix old s with
      | Some rest => new ++ replace_all_fuel fuel' old new rest
      | None => match s with
                | EmptyString => EmptyString
                | String c s' => String c (replace_all_fuel fuel' old new s')
                end
      end
  end.

Definition replace_all (s old new : string) : string :=
  replace_all_fuel (S (String.length s)) old new s.

Definition is_digit (c : ascii) : bool :=
  let n := nat_of_ascii c in (48 <=? n)%nat && (n <=? 57)%nat.

Definition digit_val (c : ascii) : Z := Z.of_nat (nat_of_ascii c) - 48.

Fixpoint all_digits (s : string) : bool :=
  match s with
  | EmptyString => true
  | String c s' => is_digit c && all_digits s'
  end.

End Str.

(* ------------------------------------------------------------------ *)
(** ** Version model: [internal/version/version.go] *)

Module Version.

Local Open Scope string_scope.

(** The capture group of the regular expression below: one or more non-empty digit
    groups separated by single dots. *)
Definition dotted_digits (v : string) : bool :=
  forallb (fun p => negb (String.eqb p "") && Str.all_digits p) (Str.split_on "." v).

(** [SemverFromName].  The regular expression
    [^Cursor-([0-9]+(\.[0-9]+) * )-x86_64\.AppImage$] (written here with
    spaces around its star) is anchored at both
    ends around fixed literals, so a match exists exactly when the name is
    ["Cursor-" ++ g ++ "-x86_64.AppImage"] with [g] in the group's
    language, and the submatch [matches[1]] is then [g]. *)
Definition SemverFromName (filename : string) : string :=
  if String.eqb filename "" then "" else
  match Str.strip_prefix "Cursor-" filename with
  | None => ""
  | Some rest =>
      match Str.strip_suffix "-x86_64.AppImage" rest with
      | None => ""
      | Some g => if dotted_digits g then g else ""
      end
  end.

(** Value of a string of decimal digits, [None] on a non-digit
    (the digit loop of [strconv]). *)
Fixpoint digits_value_acc (acc : Z) (s : string) : option Z :=
  match s with
  | EmptyString => Some acc
  | String c s' =>
      if Str.is_digit c then digits_value_acc (acc * 10 + Str.digit_val c)%Z s'
      else None
  end.

Definition digits_value (s : string) : option Z := digits_value_acc 0 s.

Definition two63 : Z := 2 ^ 63.

(** [strconv.ParseInt(s, 10, 64)], the slow path of [Atoi]: optional sign,
    [ParseUint] of the rest (non-empty, digits only for base 10), then the
    signed range check against [2^63]. *)
Definition ParseInt (s : string) : option Z :=
  match s with
  | EmptyString => None
  | String c s' =>
      let '(neg, body) :=
        if Ascii.eqb c "-" then (true, s')
        else if Ascii.eqb c "+" then (false, s') else (false, s) in
      if String.eqb body "" then None else
      match digits_value body with
      | None => None
      | Some un =>
          if neg then (if (two63 <? un)%Z then None else Some (- un)%Z)
          else (if (two63 <=? un)%Z then None else Some un)
      end
  end.

(** [strconv.Atoi] on a 64-bit platform: the fast path for
    [0 < len(s) < 19], otherwise [ParseInt(s, 10, 0)]. *)
Definition Atoi (s : string) : option Z :=
  let n := String.length s in
  if (0 <? n)%nat && (n <? 19)%nat then
    match s with
    | EmptyString => None
    | String c s' =>
        let '(neg, body) :=
          if Ascii.eqb c "-" then (true, s')
          else if Ascii.eqb c "+" then (false, s') else (false, s) in
        if String.eqb body "" then None else
        match digits_value body with
        | None => None
        | Some v => Some (if neg then (- v)%Z else v)
        end
    end
  else ParseInt s.

(** [ParseSemver]: [None] stands for a non-nil [err]. *)
Definition ParseSemver (version : string) : option (Z * Z * Z) :=
  if String.eqb version "" then None else
  match Str.split_on "." version with
  | [p0; p1; p2] =>
      match Atoi p0 with
      | None => None
      | Some major =>
          match Atoi p1 with
          | None => None
          | Some minor =>
              match Atoi p2 with
              | None => None
              | Some patch => Some (major, minor, patch)
              end
          end
      end
  | _ => None
  end.

(** [LessThan]. *)
Definition LessThan (v1 v2 : string) : bool :=
  if String.eqb v1 "" || String.eqb v2 "" then false else
  match ParseSemver v1 with
  | None => false
  | Some (major1, minor1, patch1) =>
      match ParseSemver v2 with
      | None => false
      | Some (major2, minor2, patch2) =>
          if (major1 <? major2)%Z then true
          else if (major2 <? major1)%Z then false
          else if (minor1 <? minor2)%Z then true
          else if (minor2 <? minor1)%Z then false
          else (patch1 <? patch2)%Z
      end
  end.

End Version.

Module Config.

Local Open Scope string_scope.

Record Config := mkConfig {
  DownloadDir : string;
  FileNamePattern : string;
  LatestSymlink : string;
  LedgerPath : string
}.

(** [Config.GenerateFileName]. *)
Definition GenerateFileName (c : Config) (version : string) : string :=
  Str.replace_all (FileNamePattern c) "<version>" version.

(** [NewConfig]. *)
Definition NewConfig : Config :=
  mkConfig "~/Downloads/Cursor" "Cursor-<version>-x86_64.AppImage"
    "~/Downloads/Cursor/Cursor.AppImage" "~/.config/updateCursor/cursor-versions.log".

(** [Config.Validate]: [None] stands for a nil error, [Some msg] for the
    error returned. *)
Definition Validate (c : Config) : option string :=
  if String.eqb (DownloadDir c) "" then Some "download_dir cannot be empty"
  else if String.eqb (FileNamePattern c) "" then Some "file_name_pattern cannot be empty"
  else if negb (Str.contains "<version>" (FileNamePattern c)) then
    Some "file_name_pattern must contain <version> placeholder"
  else if String.eqb (LatestSymlink c) "" then Some "latest_symlink cannot be empty"
  else if String.eqb (LedgerPath c) "" then Some "ledger_path cannot be empty"
  else None.

End Config.

(* ------------------------------------------------------------------ *)
(** ** Paths (Go [path/filepath] on Unix) *)

Module Path.

Local Open Scope string_scope.

Definition is_abs (p : string) : bool :=
  match p with String "/" _ => true | _ => false end.

Definition components (p : string) : list string :=
  filter (fun c => negb (String.eqb c "")) (Str.split_on "/" p).

(** The lexical processing of [filepath.Clean]: drop empty and ["."]
    elements, let [".."] cancel the previous element (or vanish at the
    root, or stay at the front of a relative path). *)
Fixpoint clean_stack (rooted : bool) (stk : list string) (cs : list string) : list string :=
  match cs with
  | [] => stk
  | c :: cs' =>
      if String.eqb c "." then clean_stack rooted stk cs'
      else if String.eqb c ".." then
        match stk with
        | top :: stk' =>
            if String.eqb top ".." then clean_stack rooted (c :: stk) cs'
            else clean_stack rooted stk' cs'
        | [] => if rooted then clean_stack rooted [] cs' else clean_stack rooted [c] cs'
        end
      else clean_stack rooted (c :: stk) cs'
  end.

(** [filepath.Clean]. *)
Definition Clean (p : string) : string :=
  let rooted := is_abs p in
  let body := String.concat "/" (rev (clean_stack rooted [] (components p))) in
  if rooted then "/" ++ body
  else if String.eqb body "" then "." else body.

(** [filepath.Join(a, b)]: empty elements are ignored, the rest is cleaned. *)
Definition Join (a b : string) : string :=
  if String.eqb a "" then (if String.eqb b "" then "" else Clean b)
  else if String.eqb b "" then Clean a
  else Clean (a ++ "/" ++ b).

(** Index just after the last ['/'] of [s], [0] when there is none. *)
Fixpoint after_last_slash_aux (i : nat) (best : nat) (s : string) : nat :=
  match s with
  | EmptyString => best
  | String c s' =>
      after_last_slash_aux (S i) (if Ascii.eqb c "/" then S i else best) s'
  end.

Definition after_last_slash (s : string) : nat := after_last_slash_aux 0 0 s.

(** [filepath.Dir]: everything up to and including the last separator,
    cleaned. *)
Definition Dir (p : string) : string :=
  Clean (substring 0 (after_last_slash p) p).

Fixpoint strip_trailing_slashes_rev (r : list ascii) : list ascii :=
  match r with
  | c :: r' => if Ascii.eqb c "/" then strip_trailing_slashes_rev r' else r
  | [] => []
  end.

(** [filepath.Base]: the last element after trailing slashes are removed;
    ["."] for the empty path and ["/"] for a path of slashes only. *)
Definition Base (p : string) : string :=
  if String.eqb p "" then "." else
  let q := string_of_list_ascii
             (rev (strip_trailing_slashes_rev (rev (list_ascii_of_string p)))) in
  let last := substring (after_last_slash q) (String.length q) q in
  if String.eqb last "" then "/" else last.

Fixpoint common_drop (a b : list string) : list string * list string :=
  match a, b with
  | x :: a', y :: b' => if String.eqb x y then common_drop a' b' else (a, b)
  | _, _ => (a, b)
  end.

(** [filepath.Rel(basepath, targpath)]: both cleaned, the common leading
    elements dropped, one [".."] per remaining base element; an error when
    exactly one of them is absolute or a remaining base element is [".."]. *)
Definition Rel (basepath targpath : string) : option string :=
  let b := Clean basepath in
  let t := Clean targpath in
  if String.eqb t b then Some "." else
  if negb (Bool.eqb (is_abs b) (is_abs t)) then None else
  let '(rb, rt) := common_drop (components b) (components t) in
  let rb := filter (fun c => negb (String.eqb c ".")) rb in
  let rt := filter (fun c => negb (String.eqb c ".")) rt in
  if existsb (fun c => String.eqb c "..") rb then None else
  let r := String.concat "/" (map (fun _ => "..") rb ++ rt) in
  Some (if String.eqb r "" then "." else r).

End Path.

(* ------------------------------------------------------------------ *)
(** ** The file system (Go [os] package) *)

(** The file system is a finite map from cleaned absolute paths to nodes,
    kept as an association list whose first binding wins.  Directory
    components of a path are taken literally (they are not themselves
    symbolic links); symbolic links in the last component are followed by
    the operations that follow them in Go.  Permission bits are not
    modelled. *)
Module Fs.

Local Open Scope string_scope.

Inductive Node :=
| NFile (data : string)
| NDir
| NLink (target : string).

Definition World := list (string * Node).

Inductive OsErr := ENOENT | EEXIST | ENOTDIR | EISDIR | ENOTEMPTY | ELOOP | EINVAL.

Definition errno_string (e : OsErr) : string :=
  match e with
  | ENOENT => "no such file or directory"
  | EEXIST => "file exists"
  | ENOTDIR => "not a directory"
  | EISDIR => "is a directory"
  | ENOTEMPTY => "directory not empty"
  | ELOOP => "too many levels of symbolic links"
  | EINVAL => "invalid argument"
  end.

(** A Go [*PathError] rendered by [%v]. *)
Definition path_error (op path : string) (e : OsErr) : string :=
  op ++ " " ++ path ++ ": " ++ errno_string e.

Inductive result (A : Type) :=
| Ok (a : A)
| Error (e : string).
Arguments Ok {A} a.
Arguments Error {A} e.

(** A result whose error is still an errno, for [os.IsNotExist]. *)
Inductive oresult (A : Type) :=
| OOk (a : A)
| OErr (e : OsErr).
Arguments OOk {A} a.
Arguments OErr {A} e.

Fixpoint assoc (w : World) (k : string) : option Node :=
  match w with
  | [] => None
  | (k', n) :: w' => if String.eqb k k' then Some n else assoc w' k
  end.

Definition lookup (w : World) (p : string) : option Node := assoc w (Path.Clean p).

Definition set (w : World) (p : string) (n : Node) : World :=
  let k := Path.Clean p in (k, n) :: filter (fun e => negb (String.eqb (fst e) k)) w.

Definition unset (w : World) (p : string) : World :=
  let k := Path.Clean p in filter (fun e => negb (String.eqb (fst e) k)) w.

(** Where the kernel looks for the target of a link at [p]. *)
Definition link_dest (p target : string) : string :=
  if Path.is_abs target then Path.Clean target else Path.Join (Path.Dir p) target.

Record FileInfo := mkInfo { fi_isdir : bool; fi_size : Z }.

Definition info_of (n : Node) : FileInfo :=
  match n with
  | NFile d => mkInfo false (Z.of_nat (String.length d))
  | NDir => mkInfo true 4096
  | NLink t => mkInfo false (Z.of_nat (String.length t))
  end.

Definition max_links : nat := 40.

(** The path reached by following links in the last component. *)
Fixpoint follow (fuel : nat) (w : World) (p : string) : oresult string :=
  match lookup w p with
  | Some (NLink t) =>
      match fuel with
      | O => OErr ELOOP
      | S fuel' => follow fuel' w (link_dest p t)
      end
  | _ => OOk p
  end.

(** [os.Lstat]. *)
Definition lstat (w : World) (p : string) : oresult FileInfo :=
  match lookup w p with
  | Some n => OOk (info_of n)
  | None => OErr ENOENT
  end.

(** [os.Stat]: follows links. *)
Definition stat (w : World) (p : string) : oresult FileInfo :=
  match follow max_links w p with
  | OErr e => OErr e
  | OOk q => lstat w q
  end.

(** [os.Readlink]. *)
Definition readlink (w : World) (p : string) : oresult string :=
  match lookup w p with
  | Some (NLink t) => OOk t
  | Some _ => OErr EINVAL
  | None => OErr ENOENT
  end.

Definition is_dir_at (w : World) (p : string) : bool :=
  match stat w p with OOk fi => fi_isdir fi | OErr _ => false end.

Record DirEntry := mkEntry { de_name : string; de_isdir : bool }.

Fixpoint insert_sorted (e : DirEntry) (l : list DirEntry) : list DirEntry :=
  match l with
  | [] => [e]
  | x :: l' =>
      if String.leb (de_name e) (de_name x) then e :: l else x :: insert_sorted e l'
  end.

Definition sort_entries (l : list DirEntry) : list DirEntry :=
  fold_right insert_sorted [] l.

Fixpoint dedup_keys (seen : list string) (w : World) : World :=
  match w with
  | [] => []
  | (k, n) :: w' =>
      if existsb (String.eqb k) seen then dedup_keys seen w'
      else (k, n) :: dedup_keys (k :: seen) w'
  end.

(** [os.ReadDir]: the entries directly below [d], sorted by name; the
    entry type is that of the entry itself (a link is not a directory). *)
Definition readdir (w : World) (d : string) : oresult (list DirEntry) :=
  match stat w d with
  | OErr e => OErr e
  | OOk fi =>
      if negb (fi_isdir fi) then OErr ENOTDIR else
      match follow max_links w d with
      | OErr e => OErr e
      | OOk d' =>
          let dk := Path.Clean d' in
          let kids := filter (fun e => String.eqb (Path.Dir (fst e)) dk
                                       && negb (String.eqb (fst e) dk))
                             (dedup_keys [] w) in
          OOk (sort_entries
                 (map (fun e => mkEntry (Path.Base (fst e))
                                  (match snd e with NDir => true | _ => false end))
                      kids))
      end
  end.

(** [os.Mkdir]. *)
Definition mkdir (w : World) (p : string) : oresult World :=
  match lookup w p with
  | Some _ => OErr EEXIST
  | None => if is_dir_at w (Path.Dir p) then OOk (set w p NDir) else OErr ENOENT
  end.

(** Parent used by [os.MkdirAll]: the path up to its last separator,
    after trailing separators are removed. *)
Definition mkdir_parent (p : string) : string :=
  let q := string_of_list_ascii
             (rev (Path.strip_trailing_slashes_rev (rev (list_ascii_of_string p)))) in
  substring 0 (pred (Path.after_last_slash q)) q.

(** [os.MkdirAll]: success when [p] is already a directory, [ENOTDIR]
    when it is something else, otherwise the parent first and then
    [Mkdir] (whose failure is forgiven when a directory is found there). *)
Fixpoint mkdir_all_fuel (fuel : nat) (w : World) (p : string) : oresult World :=
  match stat w p with
  | OOk fi => if fi_isdir fi then OOk w else OErr ENOTDIR
  | OErr _ =>
      let parent := mkdir_parent p in
      let w1 :=
        if (0 <? String.length parent)%nat then
          match fuel with
          | O => OErr ENOENT
          | S fuel' => mkdir_all_fuel fuel' w parent
          end
        else OOk w in
      match w1 with
      | OErr e => OErr e
      | OOk w1 =>
          match mkdir w1 p with
          | OOk w2 => OOk w2
          | OErr e =>
              match lstat w1 p with
              | OOk fi => if fi_isdir fi then OOk w1 else OErr e
              | OErr _ => OErr e
              end
          end
      end
  end.

Definition mkdir_all (w : World) (p : string) : oresult World :=
  mkdir_all_fuel (String.length p) w p.

(** Opening [p] for writing with [O_CREATE]: links are followed, a
    directory is refused, a missing file needs an existing parent
    directory.  Returns the path written and its current contents. *)
Definition open_for_write (w : World) (p : string) : oresult (string * string) :=
  match follow max_links w p with
  | OErr e => OErr e
  | OOk q =>
      match lookup w q with
      | Some NDir => OErr EISDIR
      | Some (NFile d) => OOk (q, d)
      | _ => if is_dir_at w (Path.Dir q) then OOk (q, "") else OErr ENOENT
      end
  end.

(** [os.Create] followed by a full write of [data] (also [os.WriteFile]). *)
Definition write_file (w : World) (p data : string) : oresult World :=
  match open_for_write w p with
  | OErr e => OErr e
  | OOk (q, _) => OOk (set w q (NFile data))
  end.

(** [os.OpenFile(p, O_APPEND|O_CREATE|O_WRONLY)] followed by a write. *)
Definition append_file (w : World) (p data : string) : oresult World :=
  match open_for_write w p with
  | OErr e => OErr e
  | OOk (q, old) => OOk (set w q (NFile (old ++ data)))
  end.

(** [os.Remove]: unlink a file or link, or remove an empty directory. *)
Definition remove (w : World) (p : string) : oresult World :=
  match lookup w p with
  | None => OErr ENOENT
  | Some NDir =>
      let k := Path.Clean p in
      if existsb (fun e => String.eqb (Path.Dir (fst e)) k && negb (String.eqb (fst e) k)) w
      then OErr ENOTEMPTY else OOk (unset w p)
  | Some _ => OOk (unset w p)
  end.

(** [os.Symlink(target, p)]. *)
Definition symlink (w : World) (target p : string) : oresult World :=
  match lookup w p with
  | Some _ => OErr EEXIST
  | None => if is_dir_at w (Path.Dir p) then OOk (set w p (NLink target)) else OErr ENOENT
  end.

(** [os.Open] followed by reading the whole file. *)
Definition read_file (w : World) (p : string) : oresult string :=
  match follow max_links w p with
  | OErr e => OErr e
  | OOk q =>
      match lookup w q with
      | Some (NFile d) => OOk d
      | Some NDir => OErr EISDIR
      | _ => OErr ENOENT
      end
  end.

End Fs.

(* ------------------------------------------------------------------ *)
(** ** Home directory expansion of the configuration ([internal/config]) *)

Module ConfigPaths.

Import Fs Config.
Local Open Scope string_scope.

(** [expandHomeDir]; [home] is the outcome of [os.UserHomeDir()], which is
    only consulted for a path starting with ['~']. *)
Definition expandHomeDir (home : result string) (path : string) : result string :=
  match path with
  | String "~" rest =>
      match home with
      | Error e => Error e
      | Ok h => Ok (Path.Join h rest)
      end
  | _ => Ok path
  end.

(** [Config.ExpandPaths]: the configuration after the call (each field is
    assigned before its error is checked, so a failing field becomes
    [""]) and the error returned. *)
Definition ExpandPaths (home : result string) (c : Config) : Config * result unit :=
  match expandHomeDir home (DownloadDir c) with
  | Error e =>
      (mkConfig "" (FileNamePattern c) (LatestSymlink c) (LedgerPath c),
       Error ("failed to expand download_dir: " ++ e))
  | Ok d =>
      match expandHomeDir home (LatestSymlink c) with
      | Error e =>
          (mkConfig d (FileNamePattern c) "" (LedgerPath c),
           Error ("failed to expand latest_symlink: " ++ e))
      | Ok l =>
          match expandHomeDir home (LedgerPath c) with
          | Error e =>
              (mkConfig d (FileNamePattern c) l "",
               Error ("failed to expand ledger_path: " ++ e))
          | Ok g => (mkConfig d (FileNamePattern c) l g, Ok tt)
          end
      end
  end.

End ConfigPaths.

(* ------------------------------------------------------------------ *)
(** ** Go [time.Time] and its RFC 3339 text form *)

Module GoTime.

Local Open Scope string_scope.

(** An instant ([unix] seconds and [nsec] nanoseconds since the epoch)
    together with the UTC offset of its location, in seconds. *)
Record Time := mkTime { unix : Z; nsec : Z; zone : Z }.

(** [Time.After]: strictly later instant. *)
Definition After (t u : Time) : bool :=
  (unix u <? unix t)%Z || ((unix t =? unix u)%Z && (nsec u <? nsec t)%Z).

(** [t.UTC()] with the sub-second part dropped: what survives a
    round trip through the RFC 3339 layout, which prints whole seconds. *)
Definition truncate_utc (t : Time) : Time := mkTime (unix t) 0 0.

(** Proleptic Gregorian calendar, days since 1970-01-01. *)
Definition days_from_civil (y m d : Z) : Z :=
  let y := if (m <=? 2)%Z then (y - 1)%Z else y in
  let era := (y / 400)%Z in
  let yoe := (y - era * 400)%Z in
  let mp := if (2 <? m)%Z then (m - 3)%Z else (m + 9)%Z in
  let doy := ((153 * mp + 2) / 5 + d - 1)%Z in
  let doe := (yoe * 365 + yoe / 4 - yoe / 100 + doy)%Z in
  (era * 146097 + doe - 719468)%Z.

Definition civil_from_days (z : Z) : Z * Z * Z :=
  let z := (z + 719468)%Z in
  let era := (z / 146097)%Z in
  let doe := (z - era * 146097)%Z in
  let yoe := ((doe - doe / 1460 + doe / 36524 - doe / 146096) / 365)%Z in
  let y := (yoe + era * 400)%Z in
  let doy := (doe - (365 * yoe + yoe / 4 - yoe / 100))%Z in
  let mp := ((5 * doy + 2) / 153)%Z in
  let d := (doy - (153 * mp + 2) / 5 + 1)%Z in
  let m := if (mp <? 10)%Z then (mp + 3)%Z else (mp - 9)%Z in
  ((if (m <=? 2)%Z then (y + 1)%Z else y), m, d).

Definition isLeap (y : Z) : bool :=
  (y mod 4 =? 0)%Z && (negb (y mod 100 =? 0)%Z || (y mod 400 =? 0)%Z).

(** [daysIn(month, year)]. *)
Definition daysIn (m y : Z) : Z :=
  if (m =? 2)%Z then (if isLeap y then 29 else 28)
  else if (m =? 4)%Z || (m =? 6)%Z || (m =? 9)%Z || (m =? 11)%Z then 30
  else 31.

Definition digit_char (n : Z) : ascii := ascii_of_nat (Z.to_nat (48 + n)).

(** Decimal digits of [n >= 0], no padding. *)
Fixpoint digits_fuel (fuel : nat) (n : Z) (acc : string) : string :=
  match fuel with
  | O => acc
  | S f =>
      let acc' := String (digit_char (n mod 10)) acc in
      if (n <? 10)%Z then acc' else digits_fuel f (n / 10)%Z acc'
  end.

Definition pad_left (width : nat) (s : string) : string :=
  String.concat "" (repeat "0" (width - String.length s)) ++ s.

(** [appendInt(b, x, width)]: sign, then the digits zero-padded to [width]. *)
Definition appendInt (x : Z) (width : nat) : string :=
  let s := pad_left width (digits_fuel 64 (Z.abs x) "") in
  if (x <? 0)%Z then "-" ++ s else s.

(** [t.UTC().Format(time.RFC3339)]: ["2006-01-02T15:04:05Z"]. *)
Definition FormatRFC3339UTC (t : Time) : string :=
  let days := (unix t / 86400)%Z in
  let secs := (unix t mod 86400)%Z in
  let '(y, m, d) := civil_from_days days in
  appendInt y 4 ++ "-" ++ appendInt m 2 ++ "-" ++ appendInt d 2 ++ "T"
  ++ appendInt (secs / 3600) 2 ++ ":" ++ appendInt ((secs mod 3600) / 60) 2 ++ ":"
  ++ appendInt (secs mod 60) 2 ++ "Z".

(** The [parseUint] closure of [parseRFC3339]: digits only, then a range check. *)
Definition parse_uint (s : string) (lo hi : Z) : option Z :=
  match Version.digits_value s with
  | Some x => if (lo <=? x)%Z && (x <=? hi)%Z then Some x else None
  | None => None
  end.

Definition char_at (s : string) (i : nat) : ascii :=
  match String.get i s with Some c => c | None => "000"%char end.

Definition slice (s : string) (i j : nat) : string := substring i (j - i) s.

Fixpoint count_digits (s : string) : nat :=
  match s with
  | String c s' => if Str.is_digit c then S (count_digits s') else O
  | EmptyString => O
  end.

(** [parseNanoseconds(s, n)] for [s] = ["." ++ digits]: at most nine
    fraction digits are read, the rest are ignored. *)
Definition parseNanoseconds (s : string) (n : nat) : Z :=
  let nbytes := Nat.min n 10 in
  let frac := slice s 1 nbytes in
  match Version.digits_value frac with
  | Some v => (v * 10 ^ Z.of_nat (10 - nbytes))%Z
  | None => 0
  end.

(** [time.Parse(time.RFC3339, s)] through its [parseRFC3339] fast path
    (Go 1.20 and later).  [Parse] falls back to the general layout parser
    only when this fast path fails; that fallback is not modelled. *)
Definition ParseRFC3339 (s : string) : option Time :=
  if (String.length s <? 19)%nat then None else
  match parse_uint (slice s 0 4) 0 9999, parse_uint (slice s 5 7) 1 12 with
  | Some year, Some month =>
    match parse_uint (slice s 8 10) 1 (daysIn month year),
          parse_uint (slice s 11 13) 0 23, parse_uint (slice s 14 16) 0 59,
          parse_uint (slice s 17 19) 0 59 with
    | Some day, Some hour, Some min, Some sec =>
      if negb (Ascii.eqb (char_at s 4) "-" && Ascii.eqb (char_at s 7) "-"
               && Ascii.eqb (char_at s 10) "T" && Ascii.eqb (char_at s 13) ":"
               && Ascii.eqb (char_at s 16) ":") then None else
      let s := slice s 19 (String.length s) in
      let '(ns, s) :=
        if (2 <=? String.length s)%nat && Ascii.eqb (char_at s 0) "."
           && Str.is_digit (char_at s 1)
        then let n := (2 + count_digits (slice s 2 (String.length s)))%nat in
             (parseNanoseconds s n, slice s n (String.length s))
        else (0%Z, s) in
      let base := (days_from_civil year month day * 86400
                   + hour * 3600 + min * 60 + sec)%Z in
      if String.eqb s "Z" then Some (mkTime base ns 0) else
      if negb (String.length s =? 6)%nat then None else
      match parse_uint (slice s 1 3) 0 23, parse_uint (slice s 4 6) 0 59 with
      | Some hr, Some mm =>
          if negb ((Ascii.eqb (char_at s 0) "-" || Ascii.eqb (char_at s 0) "+")
                   && Ascii.eqb (char_at s 3) ":") then None else
          let off := ((hr * 60 + mm) * 60)%Z in
          let off := if Ascii.eqb (char_at s 0) "-" then (- off)%Z else off in
          Some (mkTime (base - off) ns off)
      | _, _ => None
      end
    | _, _, _, _ => None
    end
  | _, _ => None
  end.

End GoTime.

(* ------------------------------------------------------------------ *)
(** ** Audit ledger: [internal/ledger] *)

Module Ledger.

Import Fs.
Local Open Scope string_scope.

Record Entry := mkEntry {
  Timestamp : GoTime.Time;
  Version : string;
  InternalID : string;
  Filename : string;
  SHA256 : string;
  Action : string
}.

Definition tab : string := String (ascii_of_nat 9) EmptyString.
Definition lf : string := String (ascii_of_nat 10) EmptyString.
Definition cr : ascii := ascii_of_nat 13.

(** The TSV line written by [Append]. *)
Definition format_line (e : Entry) : string :=
  GoTime.FormatRFC3339UTC (Timestamp e) ++ tab ++ Version e ++ tab ++ InternalID e
  ++ tab ++ Filename e ++ tab ++ SHA256 e ++ tab ++ Action e ++ lf.

(** [Ledger.Append]. *)
Definition Append (path : string) (w : World) (entry : Entry) : result unit * World :=
  match mkdir_all w (Path.Dir path) with
  | OErr e => (Error ("failed to create directory: " ++ errno_string e), w)
  | OOk w1 =>
      match append_file w1 path (format_line entry) with
      | OErr e => (Error ("failed to open ledger file: " ++ path_error "open" path e), w1)
      | OOk w2 => (Ok tt, w2)
      end
  end.

(** [bufio.ScanLines]: lines end at ["\n"], a final ["\r"] is dropped from
    each line, and a final unterminated line counts when it is non-empty. *)
Definition dropCR (s : string) : string :=
  match Str.strip_suffix (String cr EmptyString) s with
  | Some s' => s'
  | None => s
  end.

Definition scan_lines (content : string) : list string :=
  let pieces := Str.split_on (ascii_of_nat 10) content in
  let pieces := match rev pieces with
                | EmptyString :: rest => rev rest
                | _ => pieces
                end in
  map dropCR pieces.

(** [bufio.MaxScanTokenSize]: a line that does not fit with its newline
    in the 64 KiB buffer stops the scanner with [ErrTooLong]. *)
Definition MaxScanTokenSize : Z := 65536.

Definition too_long (content : string) : bool :=
  existsb (fun l => MaxScanTokenSize <=? Z.of_nat (String.length l))%Z
          (Str.split_on (ascii_of_nat 10) content).

(** White space for [strings.TrimSpace] ([unicode.IsSpace]) as UTF-8 byte
    sequences: the six ASCII ones, U+0085, U+00A0, U+1680, U+2000 to
    U+200A, U+2028, U+2029, U+202F, U+205F and U+3000. *)
Definition b (n : nat) : ascii := ascii_of_nat n.

Definition space_seqs : list (list ascii) :=
  [[b 9]; [b 10]; [b 11]; [b 12]; [b 13]; [b 32];
   [b 194; b 133]; [b 194; b 160]; [b 225; b 154; b 128]]
  ++ map (fun k => [b 226; b 128; b (128 + k)]) (seq 0 11)
  ++ [[b 226; b 128; b 168]; [b 226; b 128; b 169]; [b 226; b 128; b 175];
      [b 226; b 129; b 159]; [b 227; b 128; b 128]].

Fixpoint list_prefix (p l : list ascii) : option (list ascii) :=
  match p, l with
  | [], _ => Some l
  | x :: p', y :: l' => if Ascii.eqb x y then list_prefix p' l' else None
  | _ :: _, [] => None
  end.

Fixpoint first_some {A} (f : list ascii -> option A) (ps : list (list ascii)) : option A :=
  match ps with
  | [] => None
  | p :: ps' => match f p with Some a => Some a | None => first_some f ps' end
  end.

(** Drop leading white space runes. *)
Fixpoint trim_left_fuel (fuel : nat) (l : list ascii) : list ascii :=
  match fuel with
  | O => l
  | S f =>
      match first_some (fun p => list_prefix p l) space_seqs with
      | Some rest => trim_left_fuel f rest
      | None => l
      end
  end.

(** Drop trailing white space runes, working on the reversed bytes. *)
Fixpoint trim_right_rev_fuel (fuel : nat) (r : list ascii) : list ascii :=
  match fuel with
  | O => r
  | S f =>
      match first_some (fun p => list_prefix (rev p) r) space_seqs with
      | Some rest => trim_right_rev_fuel f rest
      | None => r
      end
  end.

(** [strings.TrimSpace]. *)
Definition TrimSpace (s : string) : string :=
  let l := list_ascii_of_string s in
  let l := trim_left_fuel (length l) l in
  string_of_list_ascii (rev (trim_right_rev_fuel (length l) (rev l))).

Section Read.

(** The timestamp parser; [time.Parse(time.RFC3339, _)] in the program. *)
Variable parse_time : string -> option GoTime.Time.

(** [parseEntry]. *)
Definition parseEntry (line : string) : option Entry :=
  match Str.split_on (ascii_of_nat 9) line with
  | [p0; p1; p2; p3; p4; p5] =>
      match parse_time p0 with
      | Some ts => Some (mkEntry ts p1 p2 p3 p4 p5)
      | None => None
      end
  | _ => None
  end.

(** The scanning loop of [ReadAll] over the lines of the file. *)
Fixpoint collect (lines : list string) : list Entry :=
  match lines with
  | [] => []
  | l :: ls =>
      let line := TrimSpace l in
      if String.eqb line "" then collect ls else
      match parseEntry line with
      | Some e => e :: collect ls
      | None => collect ls
      end
  end.

(** [Ledger.ReadAll]. *)
Definition ReadAll_with (path : string) (w : World) : result (list Entry) :=
  match stat w path with
  | OErr ENOENT => Ok []
  | _ =>
      match read_file w path with
      | OErr EISDIR => Error ("error reading ledger file: " ++ path_error "read" path EISDIR)
      | OErr e => Error ("failed to open ledger file: " ++ path_error "open" path e)
      | OOk content =>
          if too_long content then Error "error reading ledger file: bufio.Scanner: token too long"
          else Ok (collect (scan_lines content))
      end
  end.

(** The selection loop of [GetLatestVersion]. *)
Fixpoint latest_from (latest : Entry) (es : list Entry) : Entry :=
  match es with
  | [] => latest
  | e :: es' =>
      latest_from (if GoTime.After (Timestamp e) (Timestamp latest) then e else latest) es'
  end.

(** [Ledger.GetLatestVersion]. *)
Definition GetLatestVersion_with (path : string) (w : World) : result Entry :=
  match ReadAll_with path w with
  | Error e => Error e
  | Ok [] => Error "no entries found in ledger"
  | Ok (e0 :: es) => Ok (latest_from e0 es)
  end.

(** [Ledger.FindByInternalID]. *)
Definition FindByInternalID_with (path : string) (w : World) (id : string)
  : result (list Entry) :=
  match ReadAll_with path w with
  | Error e => Error e
  | Ok entries => Ok (filter (fun entry => String.eqb (InternalID entry) id) entries)
  end.

End Read.

Definition ReadAll := ReadAll_with GoTime.ParseRFC3339.
Definition GetLatestVersion := GetLatestVersion_with GoTime.ParseRFC3339.
Definition FindByInternalID := FindByInternalID_with GoTime.ParseRFC3339.

End Ledger.

(* ------------------------------------------------------------------ *)
(** ** Updater ([internal/updater]) and commands ([internal/cli/run.go]) *)

(** The world outside the process: the network, the clock, the process
    environment and the digest function of [crypto/sha256]. *)
Record Response := mkResponse {
  StatusCode : Z;
  Location : string;
  Body : string;
  (** the body stream fails after [Body] has been delivered *)
  BodyFails : bool
}.

Record Env := mkEnv {
  (** [client.Head(url)] following every redirect: the final URL, or the
      transport error *)
  head : string -> Fs.result string;
  (** [http.Get(url)] *)
  get : string -> Fs.result Response;
  now : GoTime.Time;
  test_mode : bool;
  sha256_hex : string -> string
}.

Inductive Request := HEAD (url : string) | GET (url : string).

(** What the commands print; progress bars are not modelled. *)
Inductive Msg :=
| MAlreadyUpToDate (local : string)
| MDownloading (v : string)
| MForceDownloading (v : string)
| MTestMode
| MBlankLine
| MUpdated (v : string)
| MForceUpdated (v : string)
| MSwitched (v : string)
| WLogFailed (err : string)
| WLogSwitchFailed (err : string)
| WRemoveFailed (err : string)
| WVersionFileFailed (err : string).

Record St := mkSt {
  fs : Fs.World;
  net : list Request;   (* requests issued, most recent first *)
  stdout : list Msg;    (* most recent first *)
  stderr : list Msg
}.

Module Updater.

Import Fs.
Local Open Scope string_scope.

(** A small state monad over [St]. *)
Definition M (A : Type) := St -> A * St.
Definition ret {A} (a : A) : M A := fun s => (a, s).
Definition bind {A B} (m : M A) (k : A -> M B) : M B :=
  fun s => let '(a, s') := m s in k a s'.
Notation "x <- m ;; k" := (bind m (fun x => k)) (at level 61, m at next level, right associativity).
Definition world : M World := fun s => (fs s, s).
Definition put_world (w : World) : M unit :=
  fun s => (tt, mkSt w (net s) (stdout s) (stderr s)).
Definition request (r : Request) : M unit :=
  fun s => (tt, mkSt (fs s) (r :: net s) (stdout s) (stderr s)).
Definition say (m : Msg) : M unit :=
  fun s => (tt, mkSt (fs s) (net s) (m :: stdout s) (stderr s)).
Definition warn (m : Msg) : M unit :=
  fun s => (tt, mkSt (fs s) (net s) (stdout s) (m :: stderr s)).

Record Updater := mkUpdater {
  downloadURL : string;
  workDir : string;
  launchLink : string;
  config : option Config.Config
}.

(** [NewUpdater]. *)
Definition NewUpdater (url wd : string) (cfg : option Config.Config) : Updater :=
  mkUpdater url wd (Path.Join wd "Cursor.AppImage") cfg.

Definition getDownloadPath (u : Updater) (filename : string) : string :=
  match config u with
  | Some c => Path.Join (Config.DownloadDir c) filename
  | None => Path.Join (workDir u) filename
  end.

Definition GenerateFileName (u : Updater) (version : string) : string :=
  match config u with
  | Some c => Config.GenerateFileName c version
  | None => "Cursor-" ++ version ++ "-x86_64.AppImage"
  end.

Definition getLatestSymlinkPath (u : Updater) : string :=
  match config u with
  | Some c => Config.LatestSymlink c
  | None => launchLink u
  end.

Section WithEnv.

Variable env : Env.

(** [GetRemoteVersion]. *)
Definition GetRemoteVersion (u : Updater) : M (result string) :=
  _ <- request (HEAD (downloadURL u)) ;;
  match head env (downloadURL u) with
  | Error e => ret (Error ("failed to check redirect: " ++ e))
  | Ok finalURL =>
      let v := Version.SemverFromName (Path.Base finalURL) in
      if String.eqb v "" then ret (Error ("could not extract version from URL: " ++ finalURL))
      else ret (Ok v)
  end.

(** The name filter of the size-matching loop of [GetLocalVersion]. *)
Definition name_filter (u : Updater) (filename : string) : bool :=
  match config u with
  | Some c =>
      Str.contains "<version>" (Config.FileNamePattern c)
      && Str.contains_char "." filename
  | None =>
      match Str.strip_prefix "Cursor-" filename,
            Str.strip_suffix "-x86_64.AppImage" filename with
      | Some _, Some _ => true
      | _, _ => false
      end
  end.

(** The size-matching loop of [GetLocalVersion]. *)
Fixpoint match_by_size (u : Updater) (w : World) (size : Z) (files : list DirEntry)
  : result string :=
  match files with
  | [] => Ok ""
  | file :: files' =>
      if de_isdir file then match_by_size u w size files' else
      let filename := de_name file in
      if negb (name_filter u filename) then match_by_size u w size files' else
      match stat w (Path.Join (workDir u) filename) with
      | OOk vs =>
          if (fi_size vs =? size)%Z then Ok (Version.SemverFromName filename)
          else match_by_size u w size files'
      | OErr _ => match_by_size u w size files'
      end
  end.

(** [GetLocalVersion]. *)
Definition GetLocalVersion (u : Updater) : M (result string) :=
  w <- world ;;
  ret (match stat w (launchLink u) with
       | OErr ENOENT => Ok ""
       | _ =>
           match readlink w (launchLink u) with
           | OOk target => Ok (Version.SemverFromName (Path.Base target))
           | OErr _ =>
               match stat w (launchLink u) with
               | OErr e => Error ("failed to stat file: " ++ path_error "stat" (launchLink u) e)
               | OOk st =>
                   match readdir w (workDir u) with
                   | OErr e => Error ("failed to read work directory: "
                                      ++ path_error "open" (workDir u) e)
                   | OOk files => match_by_size u w (fi_size st) files
                   end
               end
           end
       end).

(** [SwitchToVersion]. *)
Definition SwitchToVersion (u : Updater) (version : string) : M (result unit) :=
  let filename := GenerateFileName u version in
  let filePath := getDownloadPath u filename in
  w <- world ;;
  match stat w filePath with
  | OErr ENOENT => ret (Error ("version file not found: " ++ filename))
  | _ =>
      let symlinkPath := getLatestSymlinkPath u in
      let removed :=
        match lstat w symlinkPath with
        | OOk _ =>
            match remove w symlinkPath with
            | OOk w' => Ok w'
            | OErr e => Error ("failed to remove existing symlink: "
                               ++ path_error "remove" symlinkPath e)
            end
        | OErr _ => Ok w
        end in
      match removed with
      | Error e => ret (Error e)
      | Ok w1 =>
          _ <- put_world w1 ;;
          let relativePath :=
            match Path.Rel (Path.Dir symlinkPath) filePath with
            | Some r => r
            | None => filePath
            end in
          match symlink w1 relativePath symlinkPath with
          | OErr e => ret (Error ("failed to create symlink: "
                                  ++ path_error "symlink" symlinkPath e))
          | OOk w2 => _ <- put_world w2 ;; ret (Ok tt)
          end
      end
  end.

(** [CheckForUpdates]. *)
Definition CheckForUpdates (u : Updater) : M (result (bool * string)) :=
  rv <- GetRemoteVersion u ;;
  match rv with
  | Error e => ret (Error e)
  | Ok remoteVersion =>
      lv <- GetLocalVersion u ;;
      match lv with
      | Error e => ret (Error e)
      | Ok localVersion =>
          if String.eqb localVersion "" then ret (Ok (true, remoteVersion))
          else ret (Ok (Version.LessThan localVersion remoteVersion, remoteVersion))
      end
  end.


(** [ensureDirectories]. *)
Definition ensureDirectories (u : Updater) : M (result unit) :=
  w <- world ;;
  match mkdir_all w (workDir u) with
  | OErr e => ret (Error ("failed to create work directory: " ++ errno_string e))
  | OOk w1 =>
      _ <- put_world w1 ;;
      match config u with
      | None => ret (Ok tt)
      | Some c =>
          match mkdir_all w1 (Config.DownloadDir c) with
          | OErr e => ret (Error ("failed to create download directory: " ++ errno_string e))
          | OOk w2 =>
              _ <- put_world w2 ;;
              match mkdir_all w2 (Path.Dir (Config.LatestSymlink c)) with
              | OErr e => ret (Error ("failed to create symlink directory: " ++ errno_string e))
              | OOk w3 =>
                  _ <- put_world w3 ;;
                  match mkdir_all w3 (Path.Dir (Config.LedgerPath c)) with
                  | OErr e => ret (Error ("failed to create config directory: " ++ errno_string e))
                  | OOk w4 => _ <- put_world w4 ;; ret (Ok tt)
                  end
              end
          end
      end
  end.

Definition status_text (z : Z) : string := GoTime.appendInt z 0.

(** [DownloadCursor].  The [os.Chmod] to 0755 that follows a complete
    copy is not modelled (permission bits are not part of the model). *)
Definition DownloadCursor (u : Updater) : M (result string) :=
  rv <- GetRemoteVersion u ;;
  match rv with
  | Error e => ret (Error ("failed to get remote version: " ++ e))
  | Ok remoteVersion =>
      let filename := GenerateFileName u remoteVersion in
      let filepath := getDownloadPath u filename in
      w <- world ;;
      match stat w filepath with
      | OOk _ => ret (Ok filename)
      | OErr _ =>
          _ <- request (GET (downloadURL u)) ;;
          match get env (downloadURL u) with
          | Error e => ret (Error ("failed to download: " ++ e))
          | Ok resp0 =>
              r <- (if (StatusCode resp0 =? 302)%Z || (StatusCode resp0 =? 301)%Z then
                      if String.eqb (Location resp0) "" then
                        ret (Error "redirect location not found")
                      else
                        _ <- request (GET (Location resp0)) ;;
                        match get env (Location resp0) with
                        | Error e => ret (Error ("failed to download from redirect: " ++ e))
                        | Ok resp1 => ret (Ok resp1)
                        end
                    else ret (Ok resp0)) ;;
              match r with
              | Error e => ret (Error e)
              | Ok resp =>
                  if negb (StatusCode resp =? 200)%Z then
                    ret (Error ("download failed with status: " ++ status_text (StatusCode resp)))
                  else
                    d <- ensureDirectories u ;;
                    match d with
                    | Error e => ret (Error ("failed to ensure directories: " ++ e))
                    | Ok _ =>
                        w1 <- world ;;
                        (* [os.Create], then [io.Copy] of the body *)
                        match write_file w1 filepath (Body resp) with
                        | OErr e => ret (Error ("failed to create file: "
                                                ++ path_error "open" filepath e))
                        | OOk w2 =>
                            _ <- put_world w2 ;;
                            if BodyFails resp then
                              ret (Error "failed to write file: unexpected EOF")
                            else ret (Ok filename)
                        end
                    end
              end
          end
      end
  end.

(** [CalculateSHA256]. *)
Definition CalculateSHA256 (path : string) : M (result string) :=
  w <- world ;;
  match read_file w path with
  | OOk data => ret (Ok (sha256_hex env data))
  | OErr EISDIR => ret (Error ("failed to calculate hash: " ++ path_error "read" path EISDIR))
  | OErr e => ret (Error ("failed to open file: " ++ path_error "open" path e))
  end.

End WithEnv.

End Updater.

Module Cli.

Import Fs Updater.
Local Open Scope string_scope.

Definition defaultDownloadURL : string := "https://www.cursor.com/download/stable/linux-x64".
Definition versionFile : string := ".cursor-version".


Section WithEnv.

Variable env : Env.

Definition append_entry (ledgerPath : string) (entry : Ledger.Entry) : M (result unit) :=
  w <- world ;;
  let '(r, w') := Ledger.Append ledgerPath w entry in
  _ <- put_world w' ;;
  ret r.

(** [updateVersionFile]. *)
Definition updateVersionFile (version : string) (cfg : Config.Config) : M unit :=
  let versionFilePath := Path.Join (Config.DownloadDir cfg) versionFile in
  w <- world ;;
  match write_file w versionFilePath ("VERSION=" ++ version ++ Ledger.lf) with
  | OErr e => warn (WVersionFileFailed (path_error "open" versionFilePath e))
  | OOk w' => put_world w'
  end.

(** [executeUpdate]; [ledgerPath] is the path of the [*ledger.Ledger]. *)
Definition executeUpdate (up : Updater) (ledgerPath : string) (cfg : Config.Config)
  : M (result unit) :=
  c <- CheckForUpdates env up ;;
  match c with
  | Error e => ret (Error ("error checking for updates: " ++ e))
  | Ok (needsUpdate, remoteVersion) =>
      if negb needsUpdate then
        lv <- GetLocalVersion up ;;
        let localVersion := match lv with Ok v => v | Error _ => "" end in
        _ <- say (MAlreadyUpToDate localVersion) ;;
        ret (Ok tt)
      else
        _ <- say (MDownloading remoteVersion) ;;
        _ <- (if test_mode env then say MTestMode else ret tt) ;;
        d <- DownloadCursor env up ;;
        match d with
        | Error e => ret (Error ("error downloading Cursor: " ++ e))
        | Ok filename =>
            _ <- say MBlankLine ;;
            let filePath := Path.Join (workDir up) filename in
            h <- CalculateSHA256 env filePath ;;
            match h with
            | Error e => ret (Error ("error calculating SHA256: " ++ e))
            | Ok sha256 =>
                sw <- SwitchToVersion up remoteVersion ;;
                match sw with
                | Error e => ret (Error ("error switching to version: " ++ e))
                | Ok _ =>
                    let entry := Ledger.mkEntry (now env) remoteVersion "" filename sha256 "update" in
                    a <- append_entry ledgerPath entry ;;
                    _ <- (match a with
                          | Error e => warn (WLogFailed e)
                          | Ok _ => ret tt
                          end) ;;
                    _ <- updateVersionFile remoteVersion cfg ;;
                    _ <- say (MUpdated remoteVersion) ;;
                    ret (Ok tt)
                end
            end
        end
  end.

(** [executeForce]. *)
Definition executeForce (up : Updater) (ledgerPath : string) (cfg : Config.Config)
  : M (result unit) :=
  rv <- GetRemoteVersion env up ;;
  match rv with
  | Error e => ret (Error ("error getting remote version: " ++ e))
  | Ok remoteVersion =>
      let filename := GenerateFileName up remoteVersion in
      let filePath := Path.Join (workDir up) filename in
      w <- world ;;
      _ <- (match stat w filePath with
            | OOk _ =>
                match remove w filePath with
                | OOk w' => put_world w'
                | OErr e => warn (WRemoveFailed (path_error "remove" filePath e))
                end
            | OErr _ => ret tt
            end) ;;
      _ <- say (MForceDownloading remoteVersion) ;;
      _ <- (if test_mode env then say MTestMode else ret tt) ;;
      d <- DownloadCursor env up ;;
      match d with
      | Error e => ret (Error ("error downloading Cursor: " ++ e))
      | Ok filename =>
          _ <- say MBlankLine ;;
          let filePath := Path.Join (workDir up) filename in
          h <- CalculateSHA256 env filePath ;;
          match h with
          | Error e => ret (Error ("error calculating SHA256: " ++ e))
          | Ok sha256 =>
              sw <- SwitchToVersion up remoteVersion ;;
              match sw with
              | Error e => ret (Error ("error switching to version: " ++ e))
              | Ok _ =>
                  let entry := Ledger.mkEntry (now env) remoteVersion "" filename sha256 "force" in
                  a <- append_entry ledgerPath entry ;;
                  _ <- (match a with
                        | Error e => warn (WLogFailed e)
                        | Ok _ => ret tt
                        end) ;;
                  _ <- updateVersionFile remoteVersion cfg ;;
                  _ <- say (MForceUpdated remoteVersion) ;;
                  ret (Ok tt)
              end
          end
      end
  end.

(** The last steps of [executeUpdate] and [executeForce], once the switch
    succeeded: the ledger entry (a failure only warns), the version file,
    the success message. *)
Definition finish_run (ledgerPath : string) (cfg : Config.Config)
  (entry : Ledger.Entry) (done_msg : Msg) : M (result unit) :=
  a <- append_entry ledgerPath entry ;;
  _ <- (match a with
        | Error e => warn (WLogFailed e)
        | Ok _ => ret tt
        end) ;;
  _ <- updateVersionFile (Ledger.Version entry) cfg ;;
  _ <- say done_msg ;;
  ret (Ok tt).

(** [executeUpdate] up to and including [SwitchToVersion]: [Ok None] when
    no update is needed (the message is printed), [Ok (Some (version,
    filename, sha256))] when the new version was downloaded and switched to. *)
Definition update_until_switch (up : Updater)
  : M (result (option (string * string * string))) :=
  c <- CheckForUpdates env up ;;
  match c with
  | Error e => ret (Error ("error checking for updates: " ++ e))
  | Ok (needsUpdate, remoteVersion) =>
      if negb needsUpdate then
        lv <- GetLocalVersion up ;;
        let localVersion := match lv with Ok v => v | Error _ => "" end in
        _ <- say (MAlreadyUpToDate localVersion) ;;
        ret (Ok None)
      else
        _ <- say (MDownloading remoteVersion) ;;
        _ <- (if test_mode env then say MTestMode else ret tt) ;;
        d <- DownloadCursor env up ;;
        match d with
        | Error e => ret (Error ("error downloading Cursor: " ++ e))
        | Ok filename =>
            _ <- say MBlankLine ;;
            let filePath := Path.Join (workDir up) filename in
            h <- CalculateSHA256 env filePath ;;
            match h with
            | Error e => ret (Error ("error calculating SHA256: " ++ e))
            | Ok sha256 =>
                sw <- SwitchToVersion up remoteVersion ;;
                match sw with
                | Error e => ret (Error ("error switching to version: " ++ e))
                | Ok _ => ret (Ok (Some (remoteVersion, filename, sha256)))
                end
            end
        end
  end.

(** [executeForce] up to and including [SwitchToVersion]. *)
Definition force_until_switch (up : Updater)
  : M (result (string * string * string)) :=
  rv <- GetRemoteVersion env up ;;
  match rv with
  | Error e => ret (Error ("error getting remote version: " ++ e))
  | Ok remoteVersion =>
      let filename := GenerateFileName up remoteVersion in
      let filePath := Path.Join (workDir up) filename in
      w <- world ;;
      _ <- (match stat w filePath with
            | OOk _ =>
                match remove w filePath with
                | OOk w' => put_world w'
                | OErr e => warn (WRemoveFailed (path_error "remove" filePath e))
                end
            | OErr _ => ret tt
            end) ;;
      _ <- say (MForceDownloading remoteVersion) ;;
      _ <- (if test_mode env then say MTestMode else ret tt) ;;
      d <- DownloadCursor env up ;;
      match d with
      | Error e => ret (Error ("error downloading Cursor: " ++ e))
      | Ok filename =>
          _ <- say MBlankLine ;;
          let filePath := Path.Join (workDir up) filename in
          h <- CalculateSHA256 env filePath ;;
          match h with
          | Error e => ret (Error ("error calculating SHA256: " ++ e))
          | Ok sha256 =>
              sw <- SwitchToVersion up remoteVersion ;;
              match sw with
              | Error e => ret (Error ("error switching to version: " ++ e))
              | Ok _ => ret (Ok (remoteVersion, filename, sha256))
              end
          end
      end
  end.



End WithEnv.

(** The wiring of [executeCommand] for a loaded and expanded configuration. *)
Definition updater_of (cfg : Config.Config) : Updater :=
  NewUpdater defaultDownloadURL (Config.DownloadDir cfg) (Some cfg).

End Cli.

(* ------------------------------------------------------------------ *)
(** ** Readings of the specification, used to state the claims *)

Module Spec.

Local Open Scope string_scope.

(** A version component as [strconv.Atoi] reads it: an optional ["+"] or
    ["-"], then a non-empty run of decimal digits, within the signed 64-bit
    range. *)
Definition signed_decimal (p : string) (v : Z) : Prop :=
  exists body dv,
    body <> "" /\ Version.digits_value body = Some dv /\
    ( (p = body /\ v = dv /\ dv < Version.two63)
    \/ (p = "+" ++ body /\ v = dv /\ dv < Version.two63)
    \/ (p = "-" ++ body /\ v = - dv /\ dv <= Version.two63)).

(** The ordering of the version model: lexicographic on
    (major, minor, patch). *)
Definition version_lt (a b : Z * Z * Z) : Prop :=
  let '(a1, a2, a3) := a in
  let '(b1, b2, b3) := b in
  a1 < b1 \/ (a1 = b1 /\ (a2 < b2 \/ (a2 = b2 /\ a3 < b3))).


(** The line that [Ledger.Append] writes, without its newline. *)
Definition line_body (e : Ledger.Entry) : string :=
  GoTime.FormatRFC3339UTC (Ledger.Timestamp e) ++ Ledger.tab ++ Ledger.Version e
  ++ Ledger.tab ++ Ledger.InternalID e ++ Ledger.tab ++ Ledger.Filename e
  ++ Ledger.tab ++ Ledger.SHA256 e ++ Ledger.tab ++ Ledger.Action e.

(** The entry as it reads back: the instant in UTC, whole seconds. *)
Definition truncated (e : Ledger.Entry) : Ledger.Entry :=
  Ledger.mkEntry (GoTime.truncate_utc (Ledger.Timestamp e)) (Ledger.Version e)
    (Ledger.InternalID e) (Ledger.Filename e) (Ledger.SHA256 e) (Ledger.Action e).

(** The last byte is printable ASCII other than the space. *)
Definition last_printable (s : string) : bool :=
  match rev (list_ascii_of_string s) with
  | c :: _ => (33 <=? nat_of_ascii c)%nat && (nat_of_ascii c <=? 126)%nat
  | [] => false
  end.

(** An entry whose line reads back: a time in years 0000 to 9999, fields
    without tab or newline, an action ending in a printable byte, and a
    line shorter than the scanner's buffer. *)
Definition entry_ok (e : Ledger.Entry) : bool :=
  let u := GoTime.unix (Ledger.Timestamp e) in
  ((-62167219200 <=? u) && (u <=? 253402300799))%Z
  && forallb (fun f => negb (Str.contains_char (ascii_of_nat 9) f)
                       && negb (Str.contains_char (ascii_of_nat 10) f))
       [Ledger.Version e; Ledger.InternalID e; Ledger.Filename e; Ledger.SHA256 e;
        Ledger.Action e]
  && last_printable (Ledger.Action e)
  && (Z.of_nat (String.length (line_body e)) <? Ledger.MaxScanTokenSize)%Z.

(** Appending the entries in order, as a caller does, stopping at the
    first error. *)
Fixpoint append_each (path : string) (w : Fs.World) (es : list Ledger.Entry)
  : Fs.result unit * Fs.World :=
  match es with
  | [] => (Fs.Ok tt, w)
  | e :: es' =>
      match Ledger.Append path w e with
      | (Fs.Ok _, w1) => append_each path w1 es'
      | (Fs.Error m, w1) => (Fs.Error m, w1)
      end
  end.

(** A text made of the given lines, each ended by a newline. *)
Definition lines_text (ls : list string) : string :=
  fold_right (fun l acc => l ++ Ledger.lf ++ acc) "" ls.

End Spec.

(* ------------------------------------------------------------------ *)
(** ** Sample configuration and environment *)

Module Examples.

Import Fs.
Local Open Scope string_scope.

Definition remote_url : string :=
  "https://downloads.cursor.com/production/linux/x64/Cursor-1.4.5-x86_64.AppImage".

Definition env : Env :=
  mkEnv (fun _ => Ok remote_url) (fun _ => Ok (mkResponse 200 "" "ELF" false))
    (GoTime.mkTime 1704110400 0 0) false (fun d => "sha256:" ++ d).

(** The default configuration of [NewConfig], with [~] expanded. *)
Definition cfg : Config.Config :=
  Config.mkConfig "/home/u/Downloads/Cursor" "Cursor-<version>-x86_64.AppImage"
    "/home/u/Downloads/Cursor/Cursor.AppImage"
    "/home/u/.config/updateCursor/cursor-versions.log".

Definition up : Updater.Updater := Cli.updater_of cfg.

Definition home : World := [("/", NDir); ("/home", NDir); ("/home/u", NDir)].

(** The artifact of version [v] downloaded and current. *)
Definition installed (v : string) : World :=
  (home ++ [("/home/u/Downloads", NDir); ("/home/u/Downloads/Cursor", NDir);
            (("/home/u/Downloads/Cursor/Cursor-" ++ v ++ "-x86_64.AppImage")%string,
               NFile ("ELF-" ++ v)%string);
            ("/home/u/Downloads/Cursor/Cursor.AppImage",
               NLink ("Cursor-" ++ v ++ "-x86_64.AppImage")%string)])%list.

(** A directory stands where the ledger file should be. *)
Definition ledger_blocked : World :=
  (home ++ [("/home/u/.config", NDir); ("/home/u/.config/updateCursor", NDir);
           ("/home/u/.config/updateCursor/cursor-versions.log", NDir)])%list.

Definition start (w : World) : St := mkSt w [] [] [].


(** The entry written by an update to 1.4.5, and two variants whose lines
    end in a tab. *)
Definition entry_update : Ledger.Entry :=
  Ledger.mkEntry (GoTime.mkTime 1704110400 0 0) "1.4.5" "" "Cursor-1.4.5-x86_64.AppImage"
    "9f86d081" "update".

Definition entry_no_action : Ledger.Entry :=
  Ledger.mkEntry (GoTime.mkTime 1704110400 0 0) "1.4.5" "" "Cursor-1.4.5-x86_64.AppImage"
    "9f86d081" "".



Definition ledger_path : string := "/var/cursor/versions.log".

Definition ledger_world (content : string) : World :=
  [("/", NDir); ("/var", NDir); ("/var/cursor", NDir); (ledger_path, NFile content)].

(** The directory of the ledger, without the ledger file. *)
Definition ledger_dir_world : World :=
  [("/", NDir); ("/var", NDir); ("/var/cursor", NDir)].

(** The entry of an update made half a second after the whole second. *)
Definition entry_update_half : Ledger.Entry :=
  Ledger.mkEntry (GoTime.mkTime 1704110400 500000000 0) "1.4.5" ""
    "Cursor-1.4.5-x86_64.AppImage" "9f86d081" "update".

(** Two entries written in the same second, then an older one. *)
Definition ledger_entries : list Ledger.Entry :=
  [Ledger.mkEntry (GoTime.mkTime 1704110400 0 0) "1.4.5" "" "Cursor-1.4.5-x86_64.AppImage"
     "9f86d081" "update";
   Ledger.mkEntry (GoTime.mkTime 1704110400 0 0) "1.4.6" "" "Cursor-1.4.6-x86_64.AppImage"
     "60303ae2" "force";
   Ledger.mkEntry (GoTime.mkTime 1703980800 0 0) "1.4.0" "" "Cursor-1.4.0-x86_64.AppImage"
     "" "switch"].

(** Entries of two correlation ids, the first written twice. *)
Definition tagged_entries : list Ledger.Entry :=
  [Ledger.mkEntry (GoTime.mkTime 1704110400 0 0) "1.4.5" "a1" "Cursor-1.4.5-x86_64.AppImage"
     "9f86d081" "update";
   Ledger.mkEntry (GoTime.mkTime 1704110460 0 0) "1.4.6" "b2" "Cursor-1.4.6-x86_64.AppImage"
     "60303ae2" "force";
   Ledger.mkEntry (GoTime.mkTime 1704110520 0 0) "1.4.5" "a1" "Cursor-1.4.5-x86_64.AppImage"
     "" "switch"].

(** A server whose download stream breaks after two bytes. *)
Definition env_truncated : Env :=
  mkEnv (fun _ => Ok remote_url) (fun _ => Ok (mkResponse 200 "" "EL" true))
    (GoTime.mkTime 1704110400 0 0) false (fun d => "sha256:" ++ d).

End Examples.

(* ================================================================== *)
(** * Proofs *)

(* ------------------------------------------------------------------ *)
(** ** String lemmas *)

Module StrFacts.

Local Open Scope string_scope.

Lemma strip_prefix_app p s : Str.strip_prefix p (p ++ s) = Some s.
Proof.
  induction p as [|c p IH]; simpl; [reflexivity|].
  rewrite Ascii.eqb_refl. exact IH.
Qed.

Lemma strip_prefix_some p s r : Str.strip_prefix p s = Some r -> s = p ++ r.
Proof.
  revert s; induction p as [|c p IH]; intros s H; simpl in *.
  - congruence.
  - destruct s as [|d s]; [discriminate|].
    destruct (Ascii.eqb c d) eqn:E; [|discriminate].
    apply Ascii.eqb_eq in E; subst. f_equal. now apply IH.
Qed.

Lemma las_app a b :
  list_ascii_of_string (a ++ b) = (list_ascii_of_string a ++ list_ascii_of_string b)%list.
Proof. induction a; simpl; congruence. Qed.

Lemma sla_app a b :
  string_of_list_ascii (a ++ b)%list = string_of_list_ascii a ++ string_of_list_ascii b.
Proof. induction a; simpl; congruence. Qed.

Lemma rev_str_app a b : Str.rev_str (a ++ b) = Str.rev_str b ++ Str.rev_str a.
Proof. unfold Str.rev_str. rewrite las_app, rev_app_distr, sla_app. reflexivity. Qed.

Lemma rev_str_involutive s : Str.rev_str (Str.rev_str s) = s.
Proof.
  unfold Str.rev_str. rewrite list_ascii_of_string_of_list_ascii, rev_involutive.
  apply string_of_list_ascii_of_string.
Qed.

Lemma strip_suffix_app p s : Str.strip_suffix p (s ++ p) = Some s.
Proof.
  unfold Str.strip_suffix. rewrite rev_str_app, strip_prefix_app. simpl.
  now rewrite rev_str_involutive.
Qed.

Lemma strip_suffix_some p s r : Str.strip_suffix p s = Some r -> s = r ++ p.
Proof.
  unfold Str.strip_suffix. destruct (Str.strip_prefix (Str.rev_str p) (Str.rev_str s)) eqn:E;
    [|discriminate].
  simpl; intros H; inversion H; subst; clear H.
  apply strip_prefix_some in E.
  rewrite <- (rev_str_involutive s), E, rev_str_app, !rev_str_involutive. reflexivity.
Qed.

Lemma append_assoc a b c : a ++ (b ++ c) = (a ++ b) ++ c.
Proof. induction a; simpl; congruence. Qed.

Lemma append_empty_r a : a ++ "" = a.
Proof. induction a; simpl; congruence. Qed.

End StrFacts.

(* ------------------------------------------------------------------ *)
(** ** Version extraction ([SemverFromName]) *)

Module SemverFacts.

Import Version StrFacts.
Local Open Scope string_scope.

Definition shape (g : string) : string := "Cursor-" ++ g ++ "-x86_64.AppImage".


Lemma semver_shape g :
  SemverFromName (shape g) = if dotted_digits g then g else "".
Proof.
  unfold SemverFromName, shape.
  change ("Cursor-" ++ g ++ "-x86_64.AppImage") with ("Cursor-" ++ (g ++ "-x86_64.AppImage")).
  replace (String.eqb ("Cursor-" ++ g ++ "-x86_64.AppImage") "") with false by reflexivity.
  rewrite strip_prefix_app, strip_suffix_app. reflexivity.
Qed.

Lemma semver_nonempty f :
  SemverFromName f <> "" ->
  f = shape (SemverFromName f) /\ dotted_digits (SemverFromName f) = true.
Proof.
  unfold SemverFromName.
  destruct (String.eqb f "") eqn:E0; [tauto|].
  destruct (Str.strip_prefix "Cursor-" f) as [rest|] eqn:E1; [|tauto].
  destruct (Str.strip_suffix "-x86_64.AppImage" rest) as [g|] eqn:E2; [|tauto].
  destruct (dotted_digits g) eqn:E3; [|tauto].
  intros _. split; [|exact E3].
  apply strip_prefix_some in E1. apply strip_suffix_some in E2. subst. reflexivity.
Qed.

Lemma generate_default c v :
  Config.FileNamePattern c = "Cursor-<version>-x86_64.AppImage" ->
  Config.GenerateFileName c v = shape v.
Proof. intros H. unfold Config.GenerateFileName. rewrite H. reflexivity. Qed.

End SemverFacts.

(* ------------------------------------------------------------------ *)
(** ** [strconv.Atoi] *)

Module AtoiFacts.

Import Version.
Local Open Scope string_scope.

Lemma digit_range c : Str.is_digit c = true -> 0 <= Str.digit_val c <= 9.
Proof.
  unfold Str.is_digit, Str.digit_val. intros H; cbv zeta in H.
  apply andb_prop in H as [H1 H2]. apply Nat.leb_le in H1, H2. lia.
Qed.

Lemma digits_value_acc_bounds s : forall acc r, 0 <= acc ->
  digits_value_acc acc s = Some r ->
  acc * 10 ^ Z.of_nat (String.length s) <= r < (acc + 1) * 10 ^ Z.of_nat (String.length s).
Proof.
  induction s as [|c s IH]; intros acc r Ha H; simpl in H.
  - injection H as <-. simpl. lia.
  - destruct (Str.is_digit c) eqn:D; [|discriminate].
    pose proof (digit_range c D) as Hd.
    specialize (IH (acc * 10 + Str.digit_val c) r ltac:(lia) H).
    cbn [String.length]. rewrite Nat2Z.inj_succ, Z.pow_succ_r by lia.
    assert (0 < 10 ^ Z.of_nat (String.length s)) by (apply Z.pow_pos_nonneg; lia).
    nia.
Qed.

Lemma digits_value_bounds s dv : digits_value s = Some dv ->
  0 <= dv < 10 ^ Z.of_nat (String.length s).
Proof. intros H. apply digits_value_acc_bounds in H; lia. Qed.

Lemma pow10_18_lt_two63 : 10 ^ 18 < two63.
Proof. apply Z.ltb_lt. reflexivity. Qed.

(** The fast path of [Atoi] agrees with [ParseInt]: fewer than 19 digits
    never leave the 64-bit range. *)
Lemma atoi_parseint p : Atoi p = ParseInt p.
Proof.
  unfold Atoi, ParseInt.
  destruct ((0 <? String.length p)%nat && (String.length p <? 19)%nat) eqn:L;
    [|reflexivity].
  destruct p as [|c s']; [reflexivity|].
  apply andb_prop in L as [_ L]. apply Nat.ltb_lt in L.
  destruct (if Ascii.eqb c "-" then (true, s')
            else if Ascii.eqb c "+" then (false, s') else (false, String c s'))
    as [neg body] eqn:Eb.
  assert (Hl : (String.length body <= String.length (String c s'))%nat).
  { destruct (Ascii.eqb c "-"), (Ascii.eqb c "+"); injection Eb as _ <-;
      simpl; lia. }
  destruct (String.eqb body "") ; [reflexivity|].
  destruct (digits_value body) as [dv|] eqn:D; [|reflexivity].
  apply digits_value_bounds in D.
  assert (10 ^ Z.of_nat (String.length body) <= 10 ^ 18).
  { apply Z.pow_le_mono_r; lia. }
  pose proof pow10_18_lt_two63.
  destruct neg.
  - replace (two63 <? dv)%Z with false by (symmetry; apply Z.ltb_ge; lia). reflexivity.
  - replace (two63 <=? dv)%Z with false by (symmetry; apply Z.leb_gt; lia). reflexivity.
Qed.

Lemma digits_value_head c s dv : digits_value (String c s) = Some dv ->
  Str.is_digit c = true.
Proof. unfold digits_value. simpl. destruct (Str.is_digit c); easy. Qed.

Lemma atoi_spec p v : Atoi p = Some v <-> Spec.signed_decimal p v.
Proof.
  rewrite atoi_parseint. unfold ParseInt, Spec.signed_decimal. split.
  - destruct p as [|c s']; [discriminate|].
    destruct (Ascii.eqb c "-") eqn:Em; [|destruct (Ascii.eqb c "+") eqn:Ep].
    + apply Ascii.eqb_eq in Em. subst c.
      destruct (String.eqb s' "") eqn:Eb; [discriminate|].
      destruct (digits_value s') as [dv|] eqn:D; [|discriminate].
      destruct (two63 <? dv)%Z eqn:R; [discriminate|]. intros H; injection H as <-.
      apply Z.ltb_ge in R. apply String.eqb_neq in Eb.
      exists s', dv. split; [exact Eb|]. split; [exact D|]. right; right. auto.
    + apply Ascii.eqb_eq in Ep. subst c.
      destruct (String.eqb s' "") eqn:Eb; [discriminate|].
      destruct (digits_value s') as [dv|] eqn:D; [|discriminate].
      destruct (two63 <=? dv)%Z eqn:R; [discriminate|]. intros H; injection H as <-.
      apply Z.leb_gt in R. apply String.eqb_neq in Eb.
      exists s', dv. split; [exact Eb|]. split; [exact D|]. right; left. auto.
    + destruct (digits_value (String c s')) as [dv|] eqn:D; [|discriminate].
      destruct (two63 <=? dv)%Z eqn:R; [discriminate|]. intros H; injection H as <-.
      apply Z.leb_gt in R.
      exists (String c s'), dv. split; [discriminate|]. split; [exact D|]. left. auto.
  - intros (body & dv & Hne & D & [(-> & -> & R) | [(-> & -> & R) | (-> & -> & R)]]).
    + destruct body as [|c s']; [congruence|].
      pose proof (digits_value_head _ _ _ D) as Hc.
      destruct (Ascii.eqb c "-") eqn:Em.
      { apply Ascii.eqb_eq in Em. subst c. discriminate. }
      destruct (Ascii.eqb c "+") eqn:Ep.
      { apply Ascii.eqb_eq in Ep. subst c. discriminate. }
      simpl String.eqb. rewrite D.
      replace (two63 <=? dv)%Z with false by (symmetry; apply Z.leb_gt; lia).
      reflexivity.
    + cbn -[digits_value two63]. apply String.eqb_neq in Hne. rewrite Hne, D.
      replace (two63 <=? dv)%Z with false by (symmetry; apply Z.leb_gt; lia).
      reflexivity.
    + cbn -[digits_value two63]. apply String.eqb_neq in Hne. rewrite Hne, D.
      replace (two63 <? dv)%Z with false by (symmetry; apply Z.ltb_ge; lia).
      reflexivity.
Qed.

Lemma parse_semver_spec s a b c :
  ParseSemver s = Some (a, b, c) <->
  exists p0 p1 p2, Str.split_on "." s = [p0; p1; p2] /\
    Spec.signed_decimal p0 a /\ Spec.signed_decimal p1 b /\ Spec.signed_decimal p2 c.
Proof.
  unfold ParseSemver. destruct (String.eqb s "") eqn:E.
  - apply String.eqb_eq in E. subst s. simpl. split; [discriminate|].
    intros (p0 & p1 & p2 & H & _). discriminate.
  - destruct (Str.split_on "." s) as [|p0 [|p1 [|p2 [|p3 l]]]];
      try (split; [discriminate| intros (q0 & q1 & q2 & H & _); discriminate]).
    split.
    + destruct (Atoi p0) as [x|] eqn:A0; [|discriminate].
      destruct (Atoi p1) as [y|] eqn:A1; [|discriminate].
      destruct (Atoi p2) as [z|] eqn:A2; [|discriminate].
      intros H; injection H as <- <- <-.
      exists p0, p1, p2. rewrite <- !atoi_spec. auto.
    + intros (q0 & q1 & q2 & H & H0 & H1 & H2). injection H as <- <- <-.
      rewrite <- atoi_spec in H0, H1, H2. rewrite H0, H1, H2. reflexivity.
Qed.

End AtoiFacts.

(* ------------------------------------------------------------------ *)
(** ** The commands *)

Module RunFacts.

Import Fs Updater Cli.
Local Open Scope string_scope.

Ltac run_split :=
  repeat (cbn beta iota zeta delta [Ledger.Version];
          match goal with
          | |- context [match ?x with _ => _ end] => destruct x
          end);
  reflexivity.

(** [executeUpdate] is its part up to the switch followed by [finish_run]. *)
Lemma executeUpdate_split env up ledgerPath cfg s :
  executeUpdate env up ledgerPath cfg s =
  bind (update_until_switch env up)
    (fun x => match x with
              | Error e => ret (Error e)
              | Ok None => ret (Ok tt)
              | Ok (Some (r, filename, sha256)) =>
                  finish_run ledgerPath cfg
                    (Ledger.mkEntry (now env) r "" filename sha256 "update") (MUpdated r)
              end) s.
Proof.
  unfold executeUpdate, update_until_switch, finish_run, bind, ret, say, warn.
  run_split.
Qed.

(** [executeForce] is its part up to the switch followed by [finish_run]. *)
Lemma executeForce_split env up ledgerPath cfg s :
  executeForce env up ledgerPath cfg s =
  bind (force_until_switch env up)
    (fun x => match x with
              | Error e => ret (Error e)
              | Ok (r, filename, sha256) =>
                  finish_run ledgerPath cfg
                    (Ledger.mkEntry (now env) r "" filename sha256 "force") (MForceUpdated r)
              end) s.
Proof.
  unfold executeForce, force_until_switch, finish_run, bind, ret, say, warn.
  run_split.
Qed.

Lemma get_local_pure u s : snd (GetLocalVersion u s) = s.
Proof. reflexivity. Qed.

Lemma get_remote_state env u s :
  snd (GetRemoteVersion env u s) =
  mkSt (fs s) (HEAD (downloadURL u) :: net s) (stdout s) (stderr s).
Proof.
  unfold GetRemoteVersion, bind, request, ret. cbn.
  destruct (head env (downloadURL u)); [|reflexivity].
  destruct (String.eqb _ ""); reflexivity.
Qed.

Lemma check_state env u s :
  snd (CheckForUpdates env u s) =
  mkSt (fs s) (HEAD (downloadURL u) :: net s) (stdout s) (stderr s).
Proof.
  unfold CheckForUpdates, bind at 1. rewrite <- (get_remote_state env u s).
  destruct (GetRemoteVersion env u s) as [[r|e] s1]; [|reflexivity].
  unfold bind. rewrite <- (get_local_pure u s1) at 2.
  destruct (GetLocalVersion u s1) as [[l|e] s2]; simpl; [|reflexivity].
  destruct (String.eqb l ""); reflexivity.
Qed.

Lemma check_result env u s r s1 l :
  GetRemoteVersion env u s = (Ok r, s1) ->
  fst (GetLocalVersion u s1) = Ok l ->
  fst (CheckForUpdates env u s) =
  Ok (if String.eqb l "" then true else Version.LessThan l r, r).
Proof.
  intros HR HL. unfold CheckForUpdates, bind at 1. rewrite HR.
  unfold bind. destruct (GetLocalVersion u s1) as [lv s2]. simpl in HL. subst lv.
  destruct (String.eqb l ""); reflexivity.
Qed.

Lemma lex_ltb x1 x2 x3 y1 y2 y3 :
  (if (x1 <? y1)%Z then true
   else if (y1 <? x1)%Z then false
   else if (x2 <? y2)%Z then true
   else if (y2 <? x2)%Z then false
   else (x3 <? y3)%Z) = true <-> Spec.version_lt (x1, x2, x3) (y1, y2, y3).
Proof.
  unfold Spec.version_lt.
  destruct (Z.ltb_spec x1 y1), (Z.ltb_spec y1 x1), (Z.ltb_spec x2 y2),
    (Z.ltb_spec y2 x2), (Z.ltb_spec x3 y3);
    split; intros Hx; (discriminate || reflexivity || lia).
Qed.

Lemma lessthan_spec a b :
  Version.LessThan a b = true <->
  exists pa pb, Version.ParseSemver a = Some pa /\ Version.ParseSemver b = Some pb /\
    Spec.version_lt pa pb.
Proof.
  unfold Version.LessThan.
  destruct (String.eqb a "") eqn:Ea.
  { apply String.eqb_eq in Ea. subst a. simpl. split; [discriminate|].
    intros (pa & pb & H & _). discriminate. }
  destruct (String.eqb b "") eqn:Eb.
  { apply String.eqb_eq in Eb. subst b. simpl. split; [discriminate|].
    intros (pa & pb & _ & H & _). discriminate. }
  simpl.
  destruct (Version.ParseSemver a) as [[[x1 x2] x3]|].
  2: { split; [discriminate|]. intros (pa & pb & H & _). discriminate. }
  destruct (Version.ParseSemver b) as [[[y1 y2] y3]|].
  2: { split; [discriminate|]. intros (pa & pb & _ & H & _). discriminate. }
  rewrite lex_ltb. split.
  - intros H. eauto.
  - intros (pa & pb & Ha & Hb & H). injection Ha as <-. injection Hb as <-. exact H.
Qed.

Lemma finish_run_spec ledgerPath cfg entry msg s :
  fst (finish_run ledgerPath cfg entry msg s) = Ok tt /\
  (exists out, stdout (snd (finish_run ledgerPath cfg entry msg s)) = msg :: out) /\
  (forall e, fst (Ledger.Append ledgerPath (fs s) entry) = Error e ->
     In (WLogFailed e) (stderr (snd (finish_run ledgerPath cfg entry msg s)))).
Proof.
  unfold finish_run, append_entry, updateVersionFile, bind, world, put_world, ret,
    say, warn.
  destruct (Ledger.Append ledgerPath (fs s) entry) as [[u|e] w'] eqn:E; cbn.
  - match goal with |- context [write_file ?a ?b ?c] => destruct (write_file a b c) end;
      cbn;
      (split; [reflexivity|split; [eauto|]]); intros e' He'; discriminate.
  - match goal with |- context [write_file ?a ?b ?c] => destruct (write_file a b c) end;
      cbn;
      (split; [reflexivity|split; [eauto|]]); intros e' He'; injection He' as <-;
      simpl; auto.
Qed.



End RunFacts.

(* ------------------------------------------------------------------ *)
(** ** The RFC 3339 layout reads back what it prints *)

Module TimeFacts.

Import GoTime.

(** [f] holds at [s], [s + 1], ..., [s + k - 1]. *)
Fixpoint all_from (f : Z -> bool) (s : Z) (k : nat) : bool :=
  match k with
  | O => true
  | S k' => f s && all_from f (s + 1) k'
  end.

Lemma all_from_spec f k :
  forall s, all_from f s k = true -> forall n, s <= n < s + Z.of_nat k -> f n = true.
Proof.
  induction k as [|k IH]; intros s H n Hn; [lia|].
  simpl in H. apply andb_true_iff in H as [H1 H2].
  destruct (Z.eq_dec n s) as [->|Hne]; [exact H1|].
  apply (IH (s + 1) H2). lia.
Qed.

Definition four_ok (n : Z) : bool :=
  match appendInt n 4 with
  | String a (String b (String c (String d EmptyString))) =>
      Str.is_digit a && Str.is_digit b && Str.is_digit c && Str.is_digit d
      && match Version.digits_value (appendInt n 4) with
         | Some v => (v =? n)%Z
         | None => false
         end
  | _ => false
  end.

Definition two_ok (n : Z) : bool :=
  match appendInt n 2 with
  | String a (String b EmptyString) =>
      Str.is_digit a && Str.is_digit b
      && match Version.digits_value (appendInt n 2) with
         | Some v => (v =? n)%Z
         | None => false
         end
  | _ => false
  end.

Lemma four_check : all_from four_ok 0 (Z.to_nat 10000) = true.
Proof. vm_compute. reflexivity. Qed.

Lemma two_check : all_from two_ok 0 (Z.to_nat 100) = true.
Proof. vm_compute. reflexivity. Qed.

Lemma appendInt4 n :
  0 <= n < 10000 ->
  exists a b c d,
    appendInt n 4 = String a (String b (String c (String d ""))) /\
    Str.is_digit a = true /\ Str.is_digit b = true /\ Str.is_digit c = true /\
    Str.is_digit d = true /\
    Version.digits_value (String a (String b (String c (String d ""%string)))) = Some n.
Proof.
  intros Hn.
  assert (H : four_ok n = true)
    by (apply (all_from_spec _ _ 0 four_check); rewrite Z2Nat.id; lia).
  unfold four_ok in H.
  destruct (appendInt n 4) as [|a [|b [|c [|d [|x s]]]]]; try discriminate.
  exists a, b, c, d. split; [reflexivity|].
  repeat rewrite andb_true_iff in H. destruct H as [[[[Ha Hb] Hc] Hd] Hv].
  destruct (Version.digits_value _) as [v|]; [|discriminate].
  apply Z.eqb_eq in Hv. subst v. auto.
Qed.

Lemma appendInt2 n :
  0 <= n < 100 ->
  exists a b,
    appendInt n 2 = String a (String b "") /\
    Str.is_digit a = true /\ Str.is_digit b = true /\
    Version.digits_value (String a (String b ""%string)) = Some n.
Proof.
  intros Hn.
  assert (H : two_ok n = true)
    by (apply (all_from_spec _ _ 0 two_check); rewrite Z2Nat.id; lia).
  unfold two_ok in H.
  destruct (appendInt n 2) as [|a [|b [|x s]]]; try discriminate.
  exists a, b. split; [reflexivity|].
  repeat rewrite andb_true_iff in H. destruct H as [[Ha Hb] Hv].
  destruct (Version.digits_value _) as [v|]; [|discriminate].
  apply Z.eqb_eq in Hv. subst v. auto.
Qed.

(** The part of [civil_from_days] that depends on the day of the era. *)
Definition civil_core (doe : Z) : Z * Z * Z :=
  let yoe := ((doe - doe / 1460 + doe / 36524 - doe / 146096) / 365)%Z in
  let doy := (doe - (365 * yoe + yoe / 4 - yoe / 100))%Z in
  let mp := ((5 * doy + 2) / 153)%Z in
  let d := (doy - (153 * mp + 2) / 5 + 1)%Z in
  let m := if (mp <? 10)%Z then (mp + 3)%Z else (mp - 9)%Z in
  ((if (m <=? 2)%Z then yoe + 1 else yoe), m, d).

Definition doe_ok (doe : Z) : bool :=
  let '(y, m, d) := civil_core doe in
  (0 <=? y) && (y <=? 400) && (1 <=? m) && (m <=? 12) && (1 <=? d)
  && (d <=? daysIn m y) && Bool.eqb (y <=? 399) (doe <=? 146036)
  && (days_from_civil y m d =? doe - 719468).

Lemma doe_check : all_from doe_ok 0 (Z.to_nat 146097) = true.
Proof. vm_compute. reflexivity. Qed.

Lemma civil_from_days_core z :
  civil_from_days z =
  let era := (z + 719468) / 146097 in
  let '(y, m, d) := civil_core (z + 719468 - era * 146097) in
  (y + era * 400, m, d).
Proof.
  unfold civil_from_days, civil_core. cbv beta iota zeta.
  match goal with |- (if ?c then _ else _, _, _) = _ => destruct c end;
  f_equal; f_equal; ring.
Qed.

Lemma isLeap_400 y k : isLeap (y + k * 400) = isLeap y.
Proof.
  unfold isLeap.
  replace ((y + k * 400) mod 4) with (y mod 4)
    by (replace (y + k * 400) with (y + (k * 100) * 4) by ring;
        symmetry; apply Z.mod_add; lia).
  replace ((y + k * 400) mod 100) with (y mod 100)
    by (replace (y + k * 400) with (y + (k * 4) * 100) by ring;
        symmetry; apply Z.mod_add; lia).
  replace ((y + k * 400) mod 400) with (y mod 400)
    by (symmetry; apply Z.mod_add; lia).
  reflexivity.
Qed.

Lemma daysIn_400 m y k : daysIn m (y + k * 400) = daysIn m y.
Proof. unfold daysIn. rewrite isLeap_400. reflexivity. Qed.

Lemma days_from_civil_400 y m d k :
  days_from_civil (y + k * 400) m d = days_from_civil y m d + k * 146097.
Proof.
  unfold days_from_civil. cbv beta zeta.
  destruct (m <=? 2).
  - replace (y + k * 400 - 1) with ((y - 1) + k * 400) by ring.
    rewrite Z.div_add by lia.
    replace (y - 1 + k * 400 - ((y - 1) / 400 + k) * 400)
      with (y - 1 - (y - 1) / 400 * 400) by ring.
    ring.
  - rewrite Z.div_add by lia.
    replace (y + k * 400 - (y / 400 + k) * 400) with (y - y / 400 * 400) by ring.
    ring.
Qed.

(** The calendar of [civil_from_days] over years 0000 to 9999. *)
Lemma civil_ok z :
  -719528 <= z <= 2932896 ->
  let '(y, m, d) := civil_from_days z in
  0 <= y <= 9999 /\ 1 <= m <= 12 /\ 1 <= d <= daysIn m y /\ days_from_civil y m d = z.
Proof.
  intros Hz. rewrite civil_from_days_core. cbv zeta.
  assert (Hera : -1 <= (z + 719468) / 146097 <= 24).
  { Z.div_mod_to_equations. lia. }
  assert (Hdoe : 0 <= z + 719468 - (z + 719468) / 146097 * 146097 < 146097).
  { pose proof (Z.mod_pos_bound (z + 719468) 146097 ltac:(lia)) as Hm.
    rewrite Z.mod_eq in Hm by lia. lia. }
  set (era := (z + 719468) / 146097) in *.
  set (doe := z + 719468 - era * 146097) in *.
  assert (Hc : doe_ok doe = true)
    by (apply (all_from_spec _ _ 0 doe_check); rewrite Z2Nat.id; lia).
  unfold doe_ok in Hc.
  destruct (civil_core doe) as [[y m] d].
  repeat rewrite andb_true_iff in Hc.
  destruct Hc as [[[[[[[H1 H2] H3] H4] H5] H6] H7] H8].
  apply Z.leb_le in H1, H2, H3, H4, H5, H6. apply Z.eqb_eq in H8.
  assert (H9 : y <= 399 <-> doe <= 146036).
  { destruct (Z.leb_spec y 399), (Z.leb_spec doe 146036);
      simpl in H7; try discriminate; lia. }
  split; [|split; [lia|split]].
  - unfold doe, era in *. lia.
  - rewrite daysIn_400. lia.
  - rewrite days_from_civil_400, H8. unfold doe. lia.
Qed.

End TimeFacts.

(* ------------------------------------------------------------------ *)
(** ** The ledger *)

Module LedgerFacts.

Import Fs GoTime.
Local Open Scope string_scope.

Lemma after_spec t u :
  After t u = true <-> (unix u < unix t \/ (unix t = unix u /\ nsec u < nsec t)).
Proof.
  unfold After. rewrite orb_true_iff, andb_true_iff, !Z.ltb_lt, Z.eqb_eq. tauto.
Qed.

Lemma after_false t u :
  After t u = false <-> ~ (unix u < unix t \/ (unix t = unix u /\ nsec u < nsec t)).
Proof. rewrite <- not_true_iff_false, after_spec. tauto. Qed.

Lemma after_irrefl t : After t t = false.
Proof. apply after_false. lia. Qed.

Lemma after_le_lt x c e : After x c = false -> After e c = true -> After e x = true.
Proof. rewrite after_false, !after_spec. lia. Qed.

Lemma after_le_lt_false x c e : After x c = false -> After e c = true -> After x e = false.
Proof. rewrite !after_false, after_spec. lia. Qed.

(** The candidate of the selection loop is the first maximal entry of what
    has been scanned. *)
Lemma latest_from_inv rest : forall pre c,
  (exists i, nth_error pre i = Some c /\
     forall j x, (j < i)%nat -> nth_error pre j = Some x ->
       After (Ledger.Timestamp c) (Ledger.Timestamp x) = true) ->
  (forall x, In x pre -> After (Ledger.Timestamp x) (Ledger.Timestamp c) = false) ->
  (exists i, nth_error (pre ++ rest) i = Some (Ledger.latest_from c rest) /\
     forall j x, (j < i)%nat -> nth_error (pre ++ rest) j = Some x ->
       After (Ledger.Timestamp (Ledger.latest_from c rest)) (Ledger.Timestamp x) = true) /\
  (forall x, In x (pre ++ rest) ->
     After (Ledger.Timestamp x) (Ledger.Timestamp (Ledger.latest_from c rest)) = false).
Proof.
  induction rest as [|e rest IH]; intros pre c Hfirst Hmax.
  - rewrite app_nil_r. simpl. split; assumption.
  - simpl. replace (pre ++ e :: rest)%list with ((pre ++ [e]) ++ rest)%list
      by (rewrite <- app_assoc; reflexivity).
    apply IH.
    + destruct (After (Ledger.Timestamp e) (Ledger.Timestamp c)) eqn:A.
      * exists (length pre). split.
        { rewrite nth_error_app2, Nat.sub_diag by lia. reflexivity. }
        intros j x Hj Hx. rewrite nth_error_app1 in Hx by lia.
        apply nth_error_In in Hx.
        exact (after_le_lt _ _ _ (Hmax x Hx) A).
      * destruct Hfirst as (i & Hi & Hlt). exists i.
        assert (i < length pre)%nat by (apply nth_error_Some; congruence).
        split; [rewrite nth_error_app1 by lia; exact Hi|].
        intros j x Hj Hx. rewrite nth_error_app1 in Hx by lia. exact (Hlt j x Hj Hx).
    + intros x Hx. apply in_app_or in Hx as [Hx|[<-|[]]].
      * destruct (After (Ledger.Timestamp e) (Ledger.Timestamp c)) eqn:A.
        -- exact (after_le_lt_false _ _ _ (Hmax x Hx) A).
        -- exact (Hmax x Hx).
      * destruct (After (Ledger.Timestamp e) (Ledger.Timestamp c)) eqn:A.
        -- apply after_irrefl.
        -- exact A.
Qed.

Lemma latest_from_first_max e0 es :
  (exists i, nth_error (e0 :: es) i = Some (Ledger.latest_from e0 es) /\
     forall j x, (j < i)%nat -> nth_error (e0 :: es) j = Some x ->
       After (Ledger.Timestamp (Ledger.latest_from e0 es)) (Ledger.Timestamp x) = true) /\
  (forall x, In x (e0 :: es) ->
     After (Ledger.Timestamp x) (Ledger.Timestamp (Ledger.latest_from e0 es)) = false).
Proof.
  apply (latest_from_inv es [e0] e0).
  - exists O. split; [reflexivity|]. intros j x Hj. lia.
  - intros x [<-|[]]. apply after_irrefl.
Qed.

Lemma split_on_app_sep sep l rest :
  Str.contains_char sep l = false ->
  Str.split_on sep (l ++ String sep rest) = l :: Str.split_on sep rest.
Proof.
  induction l as [|c l IH]; intros H; simpl.
  - rewrite Ascii.eqb_refl. reflexivity.
  - simpl in H. apply orb_false_iff in H as [H1 H2].
    rewrite Ascii.eqb_sym, H1, (IH H2). reflexivity.
Qed.

Lemma split_on_nosep sep s :
  Str.contains_char sep s = false -> Str.split_on sep s = [s].
Proof.
  induction s as [|c s IH]; intros H; simpl; [reflexivity|].
  simpl in H. apply orb_false_iff in H as [H1 H2].
  rewrite Ascii.eqb_sym, H1, (IH H2). reflexivity.
Qed.

Lemma split_lines_text ls :
  Forall (fun l => Str.contains_char (ascii_of_nat 10) l = false) ls ->
  Str.split_on (ascii_of_nat 10) (Spec.lines_text ls) = (ls ++ [""])%list.
Proof.
  induction 1 as [|l ls Hl _ IH]; [reflexivity|].
  simpl. unfold Ledger.lf. simpl.
  rewrite split_on_app_sep by exact Hl. rewrite IH. reflexivity.
Qed.

Lemma scan_lines_text ls :
  Forall (fun l => Str.contains_char (ascii_of_nat 10) l = false) ls ->
  Ledger.scan_lines (Spec.lines_text ls) = map Ledger.dropCR ls.
Proof.
  intros H. unfold Ledger.scan_lines. rewrite (split_lines_text ls H).
  rewrite rev_app_distr. simpl. rewrite rev_involutive. reflexivity.
Qed.

Lemma too_long_lines_text ls :
  Forall (fun l => Str.contains_char (ascii_of_nat 10) l = false) ls ->
  Ledger.too_long (Spec.lines_text ls) =
  existsb (fun l => Ledger.MaxScanTokenSize <=? Z.of_nat (String.length l))%Z ls.
Proof.
  intros H. unfold Ledger.too_long. rewrite (split_lines_text ls H), existsb_app.
  simpl. rewrite orb_false_r. reflexivity.
Qed.

Section Collect.

Variable parse_time : string -> option Time.

Lemma collect_app ls1 ls2 :
  Ledger.collect parse_time (ls1 ++ ls2) =
  (Ledger.collect parse_time ls1 ++ Ledger.collect parse_time ls2)%list.
Proof.
  induction ls1 as [|l ls1 IH]; [reflexivity|]. simpl.
  destruct (String.eqb (Ledger.TrimSpace l) ""); [exact IH|].
  destruct (Ledger.parseEntry parse_time (Ledger.TrimSpace l)); [|exact IH].
  rewrite IH. reflexivity.
Qed.

Lemma collect_single l :
  Ledger.collect parse_time [l] =
  match Ledger.parseEntry parse_time (Ledger.TrimSpace l) with
  | Some e => [e]
  | None => []
  end.
Proof.
  simpl. destruct (String.eqb (Ledger.TrimSpace l) "") eqn:E.
  - apply String.eqb_eq in E. rewrite E. reflexivity.
  - destruct (Ledger.parseEntry parse_time (Ledger.TrimSpace l)); reflexivity.
Qed.


Lemma read_all_absent path w :
  stat w path = OErr ENOENT -> Ledger.ReadAll_with parse_time path w = Ok [].
Proof. intros H. unfold Ledger.ReadAll_with. rewrite H. reflexivity. Qed.

Lemma read_all_content path w content :
  stat w path <> OErr ENOENT -> read_file w path = OOk content ->
  Ledger.ReadAll_with parse_time path w =
  if Ledger.too_long content
  then Error "error reading ledger file: bufio.Scanner: token too long"
  else Ok (Ledger.collect parse_time (Ledger.scan_lines content)).
Proof.
  intros Hs Hr. unfold Ledger.ReadAll_with. rewrite Hr.
  destruct (stat w path) as [fi|[]]; try reflexivity. contradiction.
Qed.

End Collect.

End LedgerFacts.

(* ------------------------------------------------------------------ *)
(** ** A written ledger line reads back *)

Module LineFacts.

Import GoTime.
Local Open Scope string_scope.

Lemma parse_uint_ok s lo hi x :
  Version.digits_value s = Some x -> (lo <= x <= hi)%Z -> parse_uint s lo hi = Some x.
Proof.
  intros Hv Hr. unfold parse_uint. rewrite Hv.
  replace ((lo <=? x)%Z && (x <=? hi)%Z) with true; [reflexivity|].
  symmetry. apply andb_true_iff. split; apply Z.leb_le; lia.
Qed.

(** [parseRFC3339] on the twenty bytes ["YYYY-MM-DDTHH:MM:SSZ"]. *)
Lemma parse_explicit y0 y1 y2 y3 m0 m1 d0 d1 h0 h1 i0 i1 s0 s1 :
  ParseRFC3339
    (String y0 (String y1 (String y2 (String y3 ""))) ++ "-" ++ String m0 (String m1 "")
     ++ "-" ++ String d0 (String d1 "") ++ "T" ++ String h0 (String h1 "") ++ ":"
     ++ String i0 (String i1 "") ++ ":" ++ String s0 (String s1 "") ++ "Z") =
  match parse_uint (String y0 (String y1 (String y2 (String y3 "")))) 0 9999,
        parse_uint (String m0 (String m1 "")) 1 12 with
  | Some year, Some month =>
    match parse_uint (String d0 (String d1 "")) 1 (daysIn month year),
          parse_uint (String h0 (String h1 "")) 0 23,
          parse_uint (String i0 (String i1 "")) 0 59,
          parse_uint (String s0 (String s1 "")) 0 59 with
    | Some day, Some hour, Some min, Some sec =>
        Some (mkTime (days_from_civil year month day * 86400
                      + hour * 3600 + min * 60 + sec) 0 0)
    | _, _, _, _ => None
    end
  | _, _ => None
  end.
Proof. reflexivity. Qed.

Lemma eqb_digit sep c :
  Str.is_digit sep = false -> Str.is_digit c = true -> Ascii.eqb sep c = false.
Proof.
  intros H1 H2. destruct (Ascii.eqb sep c) eqn:E; [|reflexivity].
  apply Ascii.eqb_eq in E. subst. congruence.
Qed.

Lemma daysIn_le m y : (daysIn m y <= 31)%Z.
Proof.
  unfold daysIn. destruct (m =? 2)%Z; [destruct (isLeap y)|destruct (_ || _)]; lia.
Qed.

(** Over years 0000 to 9999 the layout prints twenty bytes starting with a
    digit, with no tab and no newline, and parses back to the instant in
    UTC, whole seconds. *)
Lemma format_parse t :
  (-62167219200 <= unix t <= 253402300799)%Z ->
  (exists c0 rest, FormatRFC3339UTC t = String c0 rest /\ Str.is_digit c0 = true) /\
  Str.contains_char (ascii_of_nat 9) (FormatRFC3339UTC t) = false /\
  Str.contains_char (ascii_of_nat 10) (FormatRFC3339UTC t) = false /\
  ParseRFC3339 (FormatRFC3339UTC t) = Some (truncate_utc t).
Proof.
  intros Hu. unfold FormatRFC3339UTC.
  pose proof (TimeFacts.civil_ok (unix t / 86400)
                ltac:(Z.div_mod_to_equations; lia)) as Hc.
  destruct (civil_from_days (unix t / 86400)) as [[y m] d].
  destruct Hc as (Hy & Hm & Hd & Hdays).
  pose proof (daysIn_le m y).
  destruct (TimeFacts.appendInt4 y ltac:(lia))
    as (y0 & y1 & y2 & y3 & Ey & Dy0 & Dy1 & Dy2 & Dy3 & Vy).
  destruct (TimeFacts.appendInt2 m ltac:(lia)) as (m0 & m1 & Em & Dm0 & Dm1 & Vm).
  destruct (TimeFacts.appendInt2 d ltac:(lia)) as (d0 & d1 & Ed & Dd0 & Dd1 & Vd).
  destruct (TimeFacts.appendInt2 (unix t mod 86400 / 3600)
              ltac:(Z.div_mod_to_equations; lia)) as (h0 & h1 & Eh & Dh0 & Dh1 & Vh).
  destruct (TimeFacts.appendInt2 (unix t mod 86400 mod 3600 / 60)
              ltac:(Z.div_mod_to_equations; lia)) as (i0 & i1 & Ei & Di0 & Di1 & Vi).
  destruct (TimeFacts.appendInt2 (unix t mod 86400 mod 60)
              ltac:(Z.div_mod_to_equations; lia)) as (s0 & s1 & Es & Ds0 & Ds1 & Vs).
  rewrite Ey, Em, Ed, Eh, Ei, Es.
  split; [exists y0; eexists; split; [reflexivity|exact Dy0]|].
  split; [|split].
  - cbn [Str.contains_char String.append].
    repeat match goal with
           | H : Str.is_digit ?c = true |- context [Ascii.eqb ?s ?c] =>
               rewrite (eqb_digit s c eq_refl H)
           end.
    reflexivity.
  - cbn [Str.contains_char String.append].
    repeat match goal with
           | H : Str.is_digit ?c = true |- context [Ascii.eqb ?s ?c] =>
               rewrite (eqb_digit s c eq_refl H)
           end.
    reflexivity.
  - rewrite parse_explicit.
    rewrite (parse_uint_ok _ 0 9999 y Vy ltac:(lia)).
    rewrite (parse_uint_ok _ 1 12 m Vm ltac:(lia)).
    rewrite (parse_uint_ok _ 1 (daysIn m y) d Vd ltac:(lia)).
    rewrite (parse_uint_ok _ 0 23 _ Vh ltac:(Z.div_mod_to_equations; lia)).
    rewrite (parse_uint_ok _ 0 59 _ Vi ltac:(Z.div_mod_to_equations; lia)).
    rewrite (parse_uint_ok _ 0 59 _ Vs ltac:(Z.div_mod_to_equations; lia)).
    unfold truncate_utc. rewrite Hdays. do 2 f_equal.
    Z.div_mod_to_equations. lia.
Qed.

(** [TrimSpace] leaves a line alone when it starts with a digit and ends
    with a printable byte. *)
Lemma first_some_head (g : list ascii -> list ascii) ps c rest :
  forallb (fun p => match g p with x :: _ => negb (Ascii.eqb x c) | [] => false end) ps
  = true ->
  Ledger.first_some (fun p => Ledger.list_prefix (g p) (c :: rest)) ps = None.
Proof.
  induction ps as [|p ps IH]; intros H; [reflexivity|].
  simpl in H. apply andb_true_iff in H as [H1 H2].
  simpl. destruct (g p) as [|x q]; [discriminate|].
  apply negb_true_iff in H1. simpl. rewrite H1. apply IH, H2.
Qed.

Lemma space_first c :
  Str.is_digit c = true ->
  forallb (fun p => match p with x :: _ => negb (Ascii.eqb x c) | [] => false end)
    Ledger.space_seqs = true.
Proof.
  destruct c as [[] [] [] [] [] [] [] []]; intros H; vm_compute in H |- *;
    first [reflexivity | discriminate].
Qed.

Lemma space_last c :
  ((33 <=? nat_of_ascii c)%nat && (nat_of_ascii c <=? 126)%nat) = true ->
  forallb (fun p => match rev p with x :: _ => negb (Ascii.eqb x c) | [] => false end)
    Ledger.space_seqs = true.
Proof.
  destruct c as [[] [] [] [] [] [] [] []]; intros H; vm_compute in H |- *;
    first [reflexivity | discriminate].
Qed.

Lemma trim_space_id s c0 r :
  s = String c0 r -> Str.is_digit c0 = true -> Spec.last_printable s = true ->
  Ledger.TrimSpace s = s.
Proof.
  intros E1 Hd Hl. unfold Spec.last_printable in Hl.
  destruct (rev (list_ascii_of_string s)) as [|a ra] eqn:Er; [discriminate|].
  assert (E0 : list_ascii_of_string s = c0 :: list_ascii_of_string r)
    by (rewrite E1; reflexivity).
  unfold Ledger.TrimSpace. cbv zeta.
  assert (L : Ledger.trim_left_fuel (length (list_ascii_of_string s))
                (list_ascii_of_string s) = list_ascii_of_string s).
  { rewrite E0. cbn [length Ledger.trim_left_fuel].
    pose proof (first_some_head (fun p => p) Ledger.space_seqs c0
                  (list_ascii_of_string r) (space_first c0 Hd)) as F.
    cbv beta in F. rewrite F. reflexivity. }
  rewrite L, Er, E0. cbn [length Ledger.trim_right_rev_fuel].
  rewrite (first_some_head (@rev ascii) Ledger.space_seqs a ra (space_last a Hl)).
  rewrite <- Er, rev_involutive. apply string_of_list_ascii_of_string.
Qed.

Lemma dropCR_id s : Spec.last_printable s = true -> Ledger.dropCR s = s.
Proof.
  intros H. unfold Ledger.dropCR.
  destruct (Str.strip_suffix (String Ledger.cr "") s) as [r|] eqn:E; [|reflexivity].
  apply StrFacts.strip_suffix_some in E. subst s.
  unfold Spec.last_printable in H. rewrite StrFacts.las_app, rev_app_distr in H.
  simpl in H. discriminate.
Qed.

Lemma last_printable_app p s :
  Spec.last_printable s = true -> Spec.last_printable (p ++ s) = true.
Proof.
  unfold Spec.last_printable. rewrite StrFacts.las_app, rev_app_distr.
  destruct (rev (list_ascii_of_string s)); [discriminate|]. simpl. auto.
Qed.

Lemma contains_char_app c a b :
  Str.contains_char c (a ++ b) = Str.contains_char c a || Str.contains_char c b.
Proof.
  induction a as [|d a IH]; simpl; [reflexivity|]. rewrite IH. apply orb_assoc.
Qed.

Lemma split_on_tab l rest :
  Str.contains_char (ascii_of_nat 9) l = false ->
  Str.split_on (ascii_of_nat 9) (l ++ Ledger.tab ++ rest) =
  l :: Str.split_on (ascii_of_nat 9) rest.
Proof. intros H. apply LedgerFacts.split_on_app_sep, H. Qed.

Lemma format_line_body e : Ledger.format_line e = Spec.line_body e ++ Ledger.lf.
Proof.
  unfold Ledger.format_line, Spec.line_body.
  repeat rewrite <- StrFacts.append_assoc. reflexivity.
Qed.

(** What [Spec.entry_ok] gives about the line of an entry. *)
Lemma line_body_facts e :
  Spec.entry_ok e = true ->
  Str.split_on (ascii_of_nat 9) (Spec.line_body e) =
    [FormatRFC3339UTC (Ledger.Timestamp e); Ledger.Version e; Ledger.InternalID e;
     Ledger.Filename e; Ledger.SHA256 e; Ledger.Action e] /\
  ParseRFC3339 (FormatRFC3339UTC (Ledger.Timestamp e))
    = Some (truncate_utc (Ledger.Timestamp e)) /\
  Str.contains_char (ascii_of_nat 10) (Spec.line_body e) = false /\
  (Z.of_nat (String.length (Spec.line_body e)) < Ledger.MaxScanTokenSize)%Z /\
  Ledger.parseEntry ParseRFC3339 (Ledger.TrimSpace (Ledger.dropCR (Spec.line_body e)))
    = Some (Spec.truncated e).
Proof.
  intros H. unfold Spec.entry_ok in H. cbv zeta in H.
  repeat rewrite andb_true_iff in H.
  destruct H as [[[[Hlo Hhi] Hf] Hl] Hlen].
  apply Z.leb_le in Hlo, Hhi. apply Z.ltb_lt in Hlen.
  simpl in Hf. repeat rewrite andb_true_iff in Hf. repeat rewrite negb_true_iff in Hf.
  destruct Hf as [[HV1 HV2] [[HI1 HI2] [[HF1 HF2] [[HS1 HS2] [[HA1 HA2] _]]]]].
  destruct (format_parse (Ledger.Timestamp e) (conj Hlo Hhi))
    as [(c0 & rest & Ef & Hd) [Ht [Hn Hp]]].
  assert (Hsplit : Str.split_on (ascii_of_nat 9) (Spec.line_body e) =
    [FormatRFC3339UTC (Ledger.Timestamp e); Ledger.Version e; Ledger.InternalID e;
     Ledger.Filename e; Ledger.SHA256 e; Ledger.Action e]).
  { unfold Spec.line_body.
    rewrite split_on_tab, split_on_tab, split_on_tab, split_on_tab, split_on_tab
      by assumption.
    rewrite (LedgerFacts.split_on_nosep _ _ HA1). reflexivity. }
  assert (Hlp : Spec.last_printable (Spec.line_body e) = true).
  { unfold Spec.line_body. repeat apply last_printable_app. exact Hl. }
  split; [exact Hsplit|]. split; [exact Hp|]. split; [|split; [exact Hlen|]].
  - unfold Spec.line_body. repeat rewrite contains_char_app.
    rewrite Hn, HV2, HI2, HF2, HS2, HA2. reflexivity.
  - rewrite dropCR_id by exact Hlp.
    rewrite (trim_space_id _ c0 (rest ++ Ledger.tab ++ Ledger.Version e ++ Ledger.tab
               ++ Ledger.InternalID e ++ Ledger.tab ++ Ledger.Filename e ++ Ledger.tab
               ++ Ledger.SHA256 e ++ Ledger.tab ++ Ledger.Action e))
      by (try exact Hd; try exact Hlp; unfold Spec.line_body; rewrite Ef; reflexivity).
    unfold Ledger.parseEntry. rewrite Hsplit, Hp. reflexivity.
Qed.

(** The lines of entries that satisfy [Spec.entry_ok] read back as the
    entries in UTC, whole seconds. *)
Lemma read_lines es :
  Forall (fun e => Spec.entry_ok e = true) es ->
  Ledger.too_long (Spec.lines_text (map Spec.line_body es)) = false /\
  Ledger.collect ParseRFC3339 (Ledger.scan_lines (Spec.lines_text (map Spec.line_body es)))
    = map Spec.truncated es.
Proof.
  intros H.
  assert (Hlf : Forall (fun l => Str.contains_char (ascii_of_nat 10) l = false)
                  (map Spec.line_body es)).
  { apply Forall_map. eapply Forall_impl; [|exact H].
    intros e He. apply (line_body_facts e He). }
  rewrite (LedgerFacts.too_long_lines_text _ Hlf), (LedgerFacts.scan_lines_text _ Hlf).
  clear Hlf. induction H as [|e es He _ IH]; [split; reflexivity|].
  destruct (line_body_facts e He) as (_ & _ & _ & Hlen & Hpe).
  destruct IH as [IH1 IH2]. cbn [map existsb]. split.
  - rewrite IH1, orb_false_r. apply Z.leb_gt. exact Hlen.
  - change (Ledger.dropCR (Spec.line_body e) :: map Ledger.dropCR (map Spec.line_body es))
      with ([Ledger.dropCR (Spec.line_body e)] ++ map Ledger.dropCR (map Spec.line_body es))%list.
    rewrite LedgerFacts.collect_app, LedgerFacts.collect_single, Hpe, IH2. reflexivity.
Qed.

End LineFacts.

(* ------------------------------------------------------------------ *)
(** ** Appending to the ledger file *)

Module AppendFacts.

Import Fs.
Local Open Scope string_scope.

Lemma follow_plain n w p :
  (forall t, lookup w p <> Some (NLink t)) -> follow n w p = OOk p.
Proof.
  intros H. destruct n; cbn [follow];
    destruct (lookup w p) as [[d| |t]|] eqn:E; try reflexivity;
    exfalso; exact (H t eq_refl).
Qed.

Lemma stat_dir w d : lookup w d = Some NDir -> stat w d = OOk (info_of NDir).
Proof.
  intros H. unfold stat. rewrite follow_plain by (rewrite H; discriminate).
  unfold lstat. rewrite H. reflexivity.
Qed.

Lemma mkdir_all_dir w d : lookup w d = Some NDir -> mkdir_all w d = OOk w.
Proof.
  intros H. unfold mkdir_all.
  destruct (String.length d); cbn [mkdir_all_fuel]; rewrite stat_dir by exact H;
    reflexivity.
Qed.

Lemma assoc_filter w k q :
  q <> k -> assoc (filter (fun e => negb (String.eqb (fst e) k)) w) q = assoc w q.
Proof.
  intros Hq. induction w as [|[k' n'] w IH]; [reflexivity|].
  cbn [filter fst]. destruct (String.eqb k' k) eqn:E; cbn [negb].
  - apply String.eqb_eq in E. subst k'. cbn [assoc].
    rewrite (proj2 (String.eqb_neq q k) Hq). exact IH.
  - cbn [assoc]. rewrite IH. reflexivity.
Qed.

Lemma lookup_set w p n q :
  lookup (set w p n) q =
  if String.eqb (Path.Clean q) (Path.Clean p) then Some n else lookup w q.
Proof.
  unfold lookup, set. cbn [assoc fst].
  destruct (String.eqb (Path.Clean q) (Path.Clean p)) eqn:E; [reflexivity|].
  apply assoc_filter, String.eqb_neq, E.
Qed.

Lemma append_file_existing w p c data :
  lookup w p = Some (NFile c) -> append_file w p data = OOk (set w p (NFile (c ++ data))).
Proof.
  intros H. unfold append_file, open_for_write.
  rewrite follow_plain by (rewrite H; discriminate). rewrite H. reflexivity.
Qed.

Lemma append_file_new w p data :
  lookup w p = None -> lookup w (Path.Dir p) = Some NDir ->
  append_file w p data = OOk (set w p (NFile data)).
Proof.
  intros H Hd. unfold append_file, open_for_write.
  rewrite follow_plain by (rewrite H; discriminate). rewrite H.
  unfold is_dir_at. rewrite stat_dir by exact Hd. reflexivity.
Qed.

Lemma Append_existing path w c e :
  lookup w (Path.Dir path) = Some NDir -> lookup w path = Some (NFile c) ->
  Ledger.Append path w e = (Ok tt, set w path (NFile (c ++ Ledger.format_line e))).
Proof.
  intros Hd Hf. unfold Ledger.Append. rewrite mkdir_all_dir by exact Hd.
  rewrite (append_file_existing _ _ _ _ Hf). reflexivity.
Qed.

Lemma Append_new path w e :
  lookup w path = None -> lookup w (Path.Dir path) = Some NDir ->
  Ledger.Append path w e = (Ok tt, set w path (NFile (Ledger.format_line e))).
Proof.
  intros Hn Hd. unfold Ledger.Append. rewrite mkdir_all_dir by exact Hd.
  rewrite (append_file_new _ _ _ Hn Hd). reflexivity.
Qed.

Lemma append_each_file path es :
  forall w c,
  Path.Clean (Path.Dir path) <> Path.Clean path ->
  lookup w (Path.Dir path) = Some NDir -> lookup w path = Some (NFile c) ->
  exists w',
    Spec.append_each path w es = (Ok tt, w') /\
    lookup w' path = Some (NFile (c ++ fold_right String.append "" (map Ledger.format_line es))).
Proof.
  induction es as [|e es IH]; intros w c Hne Hd Hf.
  - exists w. split; [reflexivity|]. cbn [map fold_right].
    rewrite StrFacts.append_empty_r. exact Hf.
  - cbn [Spec.append_each]. rewrite (Append_existing path w c e Hd Hf).
    cbv beta iota.
    destruct (IH (set w path (NFile (c ++ Ledger.format_line e)))
                 (c ++ Ledger.format_line e) Hne) as (w' & H1 & H2).
    + rewrite lookup_set.
      destruct (String.eqb_spec (Path.Clean (Path.Dir path)) (Path.Clean path));
        [contradiction|exact Hd].
    + rewrite lookup_set, String.eqb_refl. reflexivity.
    + exists w'. split; [exact H1|]. rewrite H2. cbn [map fold_right].
      rewrite StrFacts.append_assoc. reflexivity.
Qed.

Lemma concat_lines es :
  fold_right String.append "" (map Ledger.format_line es) =
  Spec.lines_text (map Spec.line_body es).
Proof.
  induction es as [|e es IH]; [reflexivity|]. cbn [map fold_right].
  rewrite IH, LineFacts.format_line_body, <- StrFacts.append_assoc. reflexivity.
Qed.

Lemma read_all_file path w c :
  lookup w path = Some (NFile c) ->
  Ledger.ReadAll path w =
  if Ledger.too_long c
  then Error "error reading ledger file: bufio.Scanner: token too long"
  else Ok (Ledger.collect GoTime.ParseRFC3339 (Ledger.scan_lines c)).
Proof.
  intros H. apply LedgerFacts.read_all_content.
  - unfold stat. rewrite follow_plain by (rewrite H; discriminate).
    unfold lstat. rewrite H. discriminate.
  - unfold read_file. rewrite follow_plain by (rewrite H; discriminate).
    rewrite H. reflexivity.
Qed.

Lemma read_all_none path w :
  lookup w path = None -> Ledger.ReadAll path w = Ok [].
Proof.
  intros H. apply LedgerFacts.read_all_absent.
  unfold stat. rewrite follow_plain by (rewrite H; discriminate).
  unfold lstat. rewrite H. reflexivity.
Qed.

End AppendFacts.

(* ------------------------------------------------------------------ *)
(** ** Claims about the version model *)

Module VersionClaims.

Import Version SemverFacts.
Local Open Scope string_scope.

(** C1 (counterexample).  With the documented custom pattern
    ["Cursor_<version>.AppImage"] the generated file name for ["1.4.5"] is
    ["Cursor_1.4.5.AppImage"], and [SemverFromName] finds no version in it. *)
Lemma C1_custom_pattern_not_extracted :
  let c := Config.mkConfig "/home/u/Applications/Cursor" "Cursor_<version>.AppImage"
             "/home/u/.local/bin/Cursor.AppImage"
             "/home/u/.config/updateCursor/cursor-versions.log" in
  Config.GenerateFileName c "1.4.5" = "Cursor_1.4.5.AppImage"
  /\ SemverFromName (Config.GenerateFileName c "1.4.5") = ""
  /\ SemverFromName (Config.GenerateFileName c "1.4.5") <> "1.4.5".
Proof. vm_compute. split; [reflexivity|split; [reflexivity|discriminate]]. Qed.

(** C1 (amended).  [SemverFromName] does not consult the configured
    pattern: it returns [g] exactly when the name is
    ["Cursor-" ++ g ++ "-x86_64.AppImage"] with [g] one or more
    non-empty digit groups separated by dots, and [""] otherwise.  Hence it
    recovers the version from generated names only for the default pattern. *)
Theorem C1_semver_from_name_fixed_shape :
  (forall g, dotted_digits g = true ->
     SemverFromName ("Cursor-" ++ g ++ "-x86_64.AppImage") = g)
  /\ (forall g, dotted_digits g = false ->
     SemverFromName ("Cursor-" ++ g ++ "-x86_64.AppImage") = "")
  /\ (forall f, SemverFromName f <> "" ->
     exists g, f = "Cursor-" ++ g ++ "-x86_64.AppImage" /\ dotted_digits g = true
               /\ SemverFromName f = g)
  /\ (forall c v, Config.FileNamePattern c = "Cursor-<version>-x86_64.AppImage" ->
     dotted_digits v = true -> SemverFromName (Config.GenerateFileName c v) = v).
Proof.
  split; [|split; [|split]].
  - intros g H. change (SemverFromName (shape g) = g). now rewrite semver_shape, H.
  - intros g H. change (SemverFromName (shape g) = ""). now rewrite semver_shape, H.
  - intros f H. exists (SemverFromName f). destruct (semver_nonempty f H) as [E D].
    auto.
  - intros c v Hp Hv. rewrite (generate_default c v Hp), semver_shape, Hv. reflexivity.
Qed.

(** C3 (counterexample).  Signed components are accepted: ["+1.2.3"]
    parses as (1, 2, 3) and ["1.-2.3"] as (1, -2, 3). *)
Lemma C3_signed_components_accepted :
  ParseSemver "+1.2.3" = Some (1, 2, 3) /\ ParseSemver "1.-2.3" = Some (1, -2, 3).
Proof. split; vm_compute; reflexivity. Qed.

(** C3 (amended).  [ParseSemver s] succeeds with (a, b, c) exactly when [s]
    splits at dots into three parts, each read by [strconv.Atoi]: an optional
    ["+"] or ["-"] followed by a non-empty run of decimal digits whose value
    lies in the signed 64-bit range; every other shape is rejected. *)
Theorem C3_parse_semver_iff :
  forall s a b c,
    ParseSemver s = Some (a, b, c) <->
    exists p0 p1 p2, Str.split_on "." s = [p0; p1; p2] /\
      Spec.signed_decimal p0 a /\ Spec.signed_decimal p1 b /\ Spec.signed_decimal p2 c.
Proof. intros s a b c. apply AtoiFacts.parse_semver_spec. Qed.

End VersionClaims.

(* ------------------------------------------------------------------ *)
(** ** Claims about the commands *)

Module RunClaims.

Import Fs Updater Cli RunFacts.
Local Open Scope string_scope.

(** C5.  Once the remote version [r] and the local version [l] are known,
    [CheckForUpdates] answers [(needs, r)] where [needs] holds exactly when
    [l] is unknown (empty) or both parse and [l] is lexicographically below
    [r]; [LessThan] is [false], not an error, when either side does not
    parse. *)
Theorem C5_check_for_updates_decision env u s r s1 l :
  GetRemoteVersion env u s = (Ok r, s1) ->
  fst (GetLocalVersion u s1) = Ok l ->
  exists needs,
    fst (CheckForUpdates env u s) = Ok (needs, r) /\
    (needs = true <->
       l = "" \/ exists pl pr, Version.ParseSemver l = Some pl /\
                               Version.ParseSemver r = Some pr /\ Spec.version_lt pl pr) /\
    (forall a b, Version.ParseSemver a = None \/ Version.ParseSemver b = None ->
       Version.LessThan a b = false).
Proof.
  intros HR HL. eexists. split; [exact (check_result env u s r s1 l HR HL)|]. split.
  - destruct (String.eqb l "") eqn:E.
    + apply String.eqb_eq in E. subst l. split; auto.
    + rewrite lessthan_spec. apply String.eqb_neq in E. split.
      * intros H. right. exact H.
      * intros [H|H]; [contradiction|exact H].
  - intros a b H. destruct (Version.LessThan a b) eqn:L; [|reflexivity].
    apply lessthan_spec in L as (pa & pb & Ha & Hb & _).
    destruct H as [H|H]; congruence.
Qed.

Lemma C5_witness :
  GetRemoteVersion Examples.env Examples.up (Examples.start (Examples.installed "1.4.0"))
    = (Ok "1.4.5", mkSt (Examples.installed "1.4.0") [HEAD defaultDownloadURL] [] []) /\
  fst (GetLocalVersion Examples.up
         (mkSt (Examples.installed "1.4.0") [HEAD defaultDownloadURL] [] [])) = Ok "1.4.0" /\
  exists needs,
    fst (CheckForUpdates Examples.env Examples.up (Examples.start (Examples.installed "1.4.0")))
      = Ok (needs, "1.4.5") /\
    (needs = true <->
       "1.4.0" = "" \/ exists pl pr, Version.ParseSemver "1.4.0" = Some pl /\
                               Version.ParseSemver "1.4.5" = Some pr /\ Spec.version_lt pl pr) /\
    (forall a b, Version.ParseSemver a = None \/ Version.ParseSemver b = None ->
       Version.LessThan a b = false).
Proof.
  split; [vm_compute; reflexivity|]. split; [vm_compute; reflexivity|].
  apply (C5_check_for_updates_decision Examples.env Examples.up
           (Examples.start (Examples.installed "1.4.0")) "1.4.5"
           (mkSt (Examples.installed "1.4.0") [HEAD defaultDownloadURL] [] []) "1.4.0");
    vm_compute; reflexivity.
Defined.

(** C6.  When [CheckForUpdates] says no update is needed, [executeUpdate]
    succeeds after the one HEAD request of the version check: no GET, the
    file system (artifacts, current reference, ledger) unchanged, nothing
    on stderr, and only the "already up to date" message on stdout; a run
    that downloads and switches instead ends with the "updated" message. *)
Theorem C6_no_update_is_noop env up ledgerPath cfg s r s1 :
  CheckForUpdates env up s = (Ok (false, r), s1) ->
  (exists l,
     executeUpdate env up ledgerPath cfg s =
     (Ok tt, mkSt (fs s) (HEAD (downloadURL up) :: net s)
                  (MAlreadyUpToDate l :: stdout s) (stderr s))) /\
  (forall s' r' filename sha256 s2,
     update_until_switch env up s' = (Ok (Some (r', filename, sha256)), s2) ->
     exists out, stdout (snd (executeUpdate env up ledgerPath cfg s')) = MUpdated r' :: out).
Proof.
  intros H. split.
  - pose proof (check_state env up s) as Hs. rewrite H in Hs. simpl in Hs. subst s1.
    unfold executeUpdate, bind at 1. rewrite H. cbn beta iota.
    unfold bind, say, ret.
    pose proof (get_local_pure up
      (mkSt (fs s) (HEAD (downloadURL up) :: net s) (stdout s) (stderr s))) as Hl.
    destruct (GetLocalVersion up _) as [lv s2]. simpl in Hl. subst s2.
    eexists. reflexivity.
  - intros s' r' filename sha256 s2 Hu.
    rewrite executeUpdate_split. unfold bind at 1. rewrite Hu. cbn beta iota.
    apply finish_run_spec.
Qed.

Lemma C6_witness :
  CheckForUpdates Examples.env Examples.up (Examples.start (Examples.installed "1.4.5"))
    = (Ok (false, "1.4.5"),
       mkSt (Examples.installed "1.4.5") [HEAD defaultDownloadURL] [] []) /\
  ((exists l,
     executeUpdate Examples.env Examples.up (Config.LedgerPath Examples.cfg) Examples.cfg
       (Examples.start (Examples.installed "1.4.5")) =
     (Ok tt, mkSt (Examples.installed "1.4.5") [HEAD defaultDownloadURL]
                  [MAlreadyUpToDate l] [])) /\
   (forall s' r' filename sha256 s2,
     update_until_switch Examples.env Examples.up s' = (Ok (Some (r', filename, sha256)), s2) ->
     exists out, stdout (snd (executeUpdate Examples.env Examples.up
                                (Config.LedgerPath Examples.cfg) Examples.cfg s'))
                 = MUpdated r' :: out)).
Proof.
  split; [vm_compute; reflexivity|].
  apply (C6_no_update_is_noop Examples.env Examples.up (Config.LedgerPath Examples.cfg)
           Examples.cfg (Examples.start (Examples.installed "1.4.5")) "1.4.5"
           (mkSt (Examples.installed "1.4.5") [HEAD defaultDownloadURL] [] [])).
  vm_compute; reflexivity.
Defined.

(** C9.  Once [executeUpdate] (or [executeForce]) has downloaded the
    artifact and switched the current reference, the command succeeds
    whatever happens to the ledger append; an append failure [e] only
    shows up as the warning [WLogFailed e]. *)
Theorem C9_ledger_failure_nonfatal :
  (forall env up ledgerPath cfg s r filename sha256 s1,
     update_until_switch env up s = (Ok (Some (r, filename, sha256)), s1) ->
     fst (executeUpdate env up ledgerPath cfg s) = Ok tt /\
     (forall e, fst (Ledger.Append ledgerPath (fs s1)
                       (Ledger.mkEntry (now env) r "" filename sha256 "update")) = Error e ->
        In (WLogFailed e) (stderr (snd (executeUpdate env up ledgerPath cfg s))))) /\
  (forall env up ledgerPath cfg s r filename sha256 s1,
     force_until_switch env up s = (Ok (r, filename, sha256), s1) ->
     fst (executeForce env up ledgerPath cfg s) = Ok tt /\
     (forall e, fst (Ledger.Append ledgerPath (fs s1)
                       (Ledger.mkEntry (now env) r "" filename sha256 "force")) = Error e ->
        In (WLogFailed e) (stderr (snd (executeForce env up ledgerPath cfg s))))).
Proof.
  split.
  - intros env up ledgerPath cfg s r filename sha256 s1 H.
    rewrite executeUpdate_split. unfold bind. rewrite H. cbn beta iota.
    destruct (finish_run_spec ledgerPath cfg
                (Ledger.mkEntry (now env) r "" filename sha256 "update") (MUpdated r) s1)
      as (Hok & _ & Hw).
    split; [exact Hok | exact Hw].
  - intros env up ledgerPath cfg s r filename sha256 s1 H.
    rewrite executeForce_split. unfold bind. rewrite H. cbn beta iota.
    destruct (finish_run_spec ledgerPath cfg
                (Ledger.mkEntry (now env) r "" filename sha256 "force") (MForceUpdated r) s1)
      as (Hok & _ & Hw).
    split; [exact Hok | exact Hw].
Qed.

Lemma C9_witness :
  let s0 := Examples.start Examples.ledger_blocked in
  let lp := Config.LedgerPath Examples.cfg in
  let s1 := snd (update_until_switch Examples.env Examples.up s0) in
  let e := "failed to open ledger file: open /home/u/.config/updateCursor/cursor-versions.log: is a directory" in
  update_until_switch Examples.env Examples.up s0
    = (Ok (Some ("1.4.5", "Cursor-1.4.5-x86_64.AppImage", "sha256:ELF")), s1) /\
  fst (Ledger.Append lp (fs s1)
         (Ledger.mkEntry (now Examples.env) "1.4.5" "" "Cursor-1.4.5-x86_64.AppImage"
            "sha256:ELF" "update")) = Error e /\
  fst (executeUpdate Examples.env Examples.up lp Examples.cfg s0) = Ok tt /\
  In (WLogFailed e) (stderr (snd (executeUpdate Examples.env Examples.up lp Examples.cfg s0))).
Proof.
  intros s0 lp s1 e.
  assert (Hu : update_until_switch Examples.env Examples.up s0
    = (Ok (Some ("1.4.5", "Cursor-1.4.5-x86_64.AppImage", "sha256:ELF")), s1))
    by (vm_compute; reflexivity).
  assert (Ha : fst (Ledger.Append lp (fs s1)
         (Ledger.mkEntry (now Examples.env) "1.4.5" "" "Cursor-1.4.5-x86_64.AppImage"
            "sha256:ELF" "update")) = Error e) by (vm_compute; reflexivity).
  destruct (proj1 C9_ledger_failure_nonfatal Examples.env Examples.up lp Examples.cfg s0
              "1.4.5" "Cursor-1.4.5-x86_64.AppImage" "sha256:ELF" s1 Hu) as [Hok Hw].
  split; [exact Hu|]. split; [exact Ha|]. split; [exact Hok|]. exact (Hw e Ha).
Defined.







End RunClaims.

(* ------------------------------------------------------------------ *)
(** ** Claims about the ledger *)

Module LedgerClaims.

Import Fs Ledger.
Local Open Scope string_scope.

(** C10.  When [ReadAll] yields a non-empty list, [GetLatestVersion]
    returns its entry at some index [i] such that no entry is strictly
    later, and every entry before [i] is strictly earlier: the first entry
    with the maximal timestamp. *)
Theorem C10_latest_is_first_maximal path w es :
  ReadAll path w = Ok es -> es <> [] ->
  exists i e,
    nth_error es i = Some e /\
    GetLatestVersion path w = Ok e /\
    (forall x, In x es -> GoTime.After (Timestamp x) (Timestamp e) = false) /\
    (forall j x, (j < i)%nat -> nth_error es j = Some x ->
       GoTime.After (Timestamp e) (Timestamp x) = true).
Proof.
  intros H Hne. destruct es as [|e0 es]; [contradiction|].
  destruct (LedgerFacts.latest_from_first_max e0 es) as [(i & Hi & Hlt) Hmax].
  exists i, (latest_from e0 es). split; [exact Hi|]. split.
  - unfold GetLatestVersion, GetLatestVersion_with.
    change (ReadAll_with GoTime.ParseRFC3339 path w) with (ReadAll path w).
    rewrite H. reflexivity.
  - split; [exact Hmax | exact Hlt].
Qed.

Lemma C10_witness :
  let w := Examples.ledger_world (String.concat "" (map format_line Examples.ledger_entries)) in
  let es := match ReadAll Examples.ledger_path w with Ok es => es | Error _ => [] end in
  ReadAll Examples.ledger_path w = Ok es /\ es <> [] /\
  match GetLatestVersion Examples.ledger_path w with
  | Ok e => Version e = "1.4.5"
  | Error _ => False
  end /\
  exists i e,
    nth_error es i = Some e /\
    GetLatestVersion Examples.ledger_path w = Ok e /\
    (forall x, In x es -> GoTime.After (Timestamp x) (Timestamp e) = false) /\
    (forall j x, (j < i)%nat -> nth_error es j = Some x ->
       GoTime.After (Timestamp e) (Timestamp x) = true).
Proof.
  intros w es.
  assert (H : ReadAll Examples.ledger_path w = Ok es) by (vm_compute; reflexivity).
  assert (Hne : es <> []) by (vm_compute; discriminate).
  split; [exact H|]. split; [exact Hne|]. split; [vm_compute; reflexivity|].
  exact (C10_latest_is_first_maximal Examples.ledger_path w es H Hne).
Defined.




(** C8 (counterexample): appending an entry whose time has a fraction of a
    second reads back a different entry, the time cut to whole seconds; an
    appended entry with an empty action is not read back at all. *)
Lemma C8_counterexample :
  match Spec.append_each Examples.ledger_path Examples.ledger_dir_world
          [Examples.entry_update_half] with
  | (Ok _, w1) => ReadAll Examples.ledger_path w1 = Ok [Examples.entry_update]
  | (Error _, _) => False
  end /\
  Examples.entry_update <> Examples.entry_update_half /\
  match Spec.append_each Examples.ledger_path Examples.ledger_dir_world
          [Examples.entry_no_action] with
  | (Ok _, w1) => ReadAll Examples.ledger_path w1 = Ok []
  | (Error _, _) => False
  end.
Proof.
  split; [vm_compute; reflexivity|]. split; [|vm_compute; reflexivity].
  intros H. apply (f_equal (fun e => GoTime.nsec (Timestamp e))) in H.
  vm_compute in H. discriminate.
Qed.

(** C8 (amended): appending entries one by one to an absent ledger whose
    directory exists succeeds, leaves the file holding their lines in
    order, and [ReadAll] then returns one entry per append, in order, each
    equal to the appended one with its time in UTC cut to whole seconds.
    This holds for entries in years 0000 to 9999 whose fields hold no tab
    or newline, whose action ends in a printable byte and whose line is
    shorter than 64 KiB. Each such line is the six tab-separated fields,
    the RFC 3339 UTC time first and the action last, then a newline; and an
    append to an existing ledger file keeps its content and adds the line
    at its end. *)
Theorem C8_append_read_roundtrip path w es :
  lookup w path = None ->
  lookup w (Path.Dir path) = Some NDir ->
  Forall (fun e => Spec.entry_ok e = true) es ->
  (exists w',
     Spec.append_each path w es = (Ok tt, w') /\
     ReadAll path w' = Ok (map Spec.truncated es) /\
     (es <> [] ->
      lookup w' path = Some (NFile (fold_right String.append "" (map format_line es))))) /\
  Forall (fun e =>
     format_line e = Spec.line_body e ++ lf /\
     Str.split_on (ascii_of_nat 9) (Spec.line_body e) =
       [GoTime.FormatRFC3339UTC (Timestamp e); Version e; InternalID e; Filename e;
        SHA256 e; Action e] /\
     GoTime.ParseRFC3339 (GoTime.FormatRFC3339UTC (Timestamp e))
       = Some (GoTime.truncate_utc (Timestamp e))) es /\
  (forall w0 c e,
     lookup w0 (Path.Dir path) = Some NDir -> lookup w0 path = Some (NFile c) ->
     Append path w0 e = (Ok tt, set w0 path (NFile (c ++ format_line e)))).
Proof.
  intros Hn Hd Hok. split; [|split].
  - assert (Hne : Path.Clean (Path.Dir path) <> Path.Clean path).
    { intros E. unfold lookup in Hn, Hd. rewrite E in Hd. congruence. }
    destruct es as [|e es].
    + exists w. split; [reflexivity|]. split; [|intros []; reflexivity].
      apply AppendFacts.read_all_none, Hn.
    + cbn [Spec.append_each]. rewrite (AppendFacts.Append_new path w e Hn Hd).
      cbv beta iota.
      destruct (AppendFacts.append_each_file path es
                  (set w path (NFile (format_line e))) (format_line e) Hne)
        as (w' & H1 & H2).
      * rewrite AppendFacts.lookup_set.
        destruct (String.eqb_spec (Path.Clean (Path.Dir path)) (Path.Clean path));
          [contradiction|exact Hd].
      * rewrite AppendFacts.lookup_set, String.eqb_refl. reflexivity.
      * exists w'. split; [exact H1|].
        assert (Hc : (format_line e ++ fold_right String.append "" (map format_line es))
                     = fold_right String.append "" (map format_line (e :: es)))
          by reflexivity.
        rewrite Hc in H2. split; [|intros _; exact H2].
        rewrite (AppendFacts.read_all_file _ _ _ H2), AppendFacts.concat_lines.
        destruct (LineFacts.read_lines _ Hok) as [Ht Hr]. rewrite Ht, Hr. reflexivity.
  - eapply Forall_impl; [|exact Hok]. intros e He.
    destruct (LineFacts.line_body_facts e He) as (Hs & Hp & _).
    split; [apply LineFacts.format_line_body|]. split; [exact Hs|exact Hp].
  - intros w0 c e Hd0 Hf0. apply AppendFacts.Append_existing; assumption.
Qed.

Lemma C8_witness :
  lookup Examples.ledger_dir_world Examples.ledger_path = None /\
  lookup Examples.ledger_dir_world (Path.Dir Examples.ledger_path) = Some NDir /\
  Forall (fun e => Spec.entry_ok e = true) Examples.ledger_entries /\
  ((exists w',
     Spec.append_each Examples.ledger_path Examples.ledger_dir_world
       Examples.ledger_entries = (Ok tt, w') /\
     ReadAll Examples.ledger_path w' = Ok (map Spec.truncated Examples.ledger_entries) /\
     (Examples.ledger_entries <> [] ->
      lookup w' Examples.ledger_path =
        Some (NFile (fold_right String.append ""
                       (map format_line Examples.ledger_entries))))) /\
  Forall (fun e =>
     format_line e = Spec.line_body e ++ lf /\
     Str.split_on (ascii_of_nat 9) (Spec.line_body e) =
       [GoTime.FormatRFC3339UTC (Timestamp e); Version e; InternalID e; Filename e;
        SHA256 e; Action e] /\
     GoTime.ParseRFC3339 (GoTime.FormatRFC3339UTC (Timestamp e))
       = Some (GoTime.truncate_utc (Timestamp e))) Examples.ledger_entries /\
  (forall w0 c e,
     lookup w0 (Path.Dir Examples.ledger_path) = Some NDir ->
     lookup w0 Examples.ledger_path = Some (NFile c) ->
     Append Examples.ledger_path w0 e =
       (Ok tt, set w0 Examples.ledger_path (NFile (c ++ format_line e))))).
Proof.
  assert (Hn : lookup Examples.ledger_dir_world Examples.ledger_path = None)
    by (vm_compute; reflexivity).
  assert (Hd : lookup Examples.ledger_dir_world (Path.Dir Examples.ledger_path)
               = Some NDir) by (vm_compute; reflexivity).
  assert (Hok : Forall (fun e => Spec.entry_ok e = true) Examples.ledger_entries)
    by (repeat apply Forall_cons; try apply Forall_nil; vm_compute; reflexivity).
  split; [exact Hn|]. split; [exact Hd|]. split; [exact Hok|].
  exact (C8_append_read_roundtrip Examples.ledger_path Examples.ledger_dir_world
           Examples.ledger_entries Hn Hd Hok).
Defined.

End LedgerClaims.

(* ================================================================== *)
(** * Further properties of the code *)

Module VersionOrderFacts.

Import Version.
Local Open Scope string_scope.

Lemma version_lt_irrefl p : ~ Spec.version_lt p p.
Proof. destruct p as [[x y] z]. unfold Spec.version_lt. lia. Qed.

Lemma version_lt_trans p q r :
  Spec.version_lt p q -> Spec.version_lt q r -> Spec.version_lt p r.
Proof.
  destruct p as [[x1 x2] x3], q as [[y1 y2] y3], r as [[z1 z2] z3].
  unfold Spec.version_lt. lia.
Qed.

Lemma version_lt_total p q :
  p = q \/ Spec.version_lt p q \/ Spec.version_lt q p.
Proof.
  destruct p as [[x1 x2] x3], q as [[y1 y2] y3]. unfold Spec.version_lt.
  destruct (Z.lt_trichotomy x1 y1) as [H1|[H1|H1]]; [lia| |lia]. subst y1.
  destruct (Z.lt_trichotomy x2 y2) as [H2|[H2|H2]]; [lia| |lia]. subst y2.
  destruct (Z.lt_trichotomy x3 y3) as [H3|[H3|H3]]; [lia| |lia]. subst y3. auto.
Qed.

Lemma lessthan_false a b :
  Version.LessThan a b = false <->
  ~ exists pa pb, ParseSemver a = Some pa /\ ParseSemver b = Some pb /\
      Spec.version_lt pa pb.
Proof.
  rewrite <- RunFacts.lessthan_spec. destruct (Version.LessThan a b); intuition congruence.
Qed.

(** Decimal digits as [appendInt] writes them. *)
Lemma digit_char_ok k : 0 <= k < 10 ->
  Str.is_digit (GoTime.digit_char k) = true /\ Str.digit_val (GoTime.digit_char k) = k.
Proof.
  intros Hk.
  assert (k = 0 \/ k = 1 \/ k = 2 \/ k = 3 \/ k = 4 \/ k = 5 \/ k = 6 \/ k = 7
          \/ k = 8 \/ k = 9) as Hc by lia.
  repeat destruct Hc as [->|Hc]; try (subst k); split; reflexivity.
Qed.

Lemma digits_fuel_shape f : forall n acc, 0 <= n ->
  exists ds, GoTime.digits_fuel f n acc = ds ++ acc /\ Str.all_digits ds = true /\
    (f <> O -> ds <> "").
Proof.
  induction f as [|f IH]; intros n acc Hn.
  - exists "". split; [reflexivity|]. split; [reflexivity|]. congruence.
  - cbn [GoTime.digits_fuel].
    destruct (digit_char_ok (n mod 10) ltac:(apply Z.mod_pos_bound; lia)) as [Hd _].
    destruct (n <? 10)%Z.
    + exists (String (GoTime.digit_char (n mod 10)) ""). split; [reflexivity|].
      split; [cbn; rewrite Hd; reflexivity|]. discriminate.
    + destruct (IH (n / 10) (String (GoTime.digit_char (n mod 10)) acc))
        as (ds & E & Ha & _); [apply Z.div_pos; lia|].
      exists (ds ++ String (GoTime.digit_char (n mod 10)) "").
      rewrite E, <- StrFacts.append_assoc. split; [reflexivity|]. split.
      * clear E. induction ds as [|c ds IHd]; cbn; [rewrite Hd; reflexivity|].
        cbn in Ha. apply andb_prop in Ha as [H1 H2]. rewrite H1, (IHd H2). reflexivity.
      * intros _. destruct ds; discriminate.
Qed.

Lemma digits_fuel_value f : forall n acc, 0 <= n < 10 ^ Z.of_nat f ->
  digits_value_acc 0 (GoTime.digits_fuel f n acc) = digits_value_acc n acc.
Proof.
  induction f as [|f IH]; intros n acc Hn.
  - cbn in Hn. replace n with 0 by lia. reflexivity.
  - cbn [GoTime.digits_fuel].
    destruct (digit_char_ok (n mod 10) ltac:(apply Z.mod_pos_bound; lia)) as [Hd Hv].
    destruct (Z.ltb_spec n 10).
    + cbn [digits_value_acc]. rewrite Hd, Hv, Z.mod_small by lia. reflexivity.
    + rewrite IH.
      * cbn [digits_value_acc]. rewrite Hd, Hv.
        rewrite (Z.div_mod n 10) at 3 by lia. f_equal. lia.
      * rewrite Nat2Z.inj_succ, Z.pow_succ_r in Hn by lia.
        split; [apply Z.div_pos; lia|]. apply Z.div_lt_upper_bound; lia.
Qed.

Lemma all_digits_no_dot ds : Str.all_digits ds = true -> Str.contains_char "." ds = false.
Proof.
  induction ds as [|c ds IH]; [reflexivity|].
  cbn [Str.all_digits Str.contains_char]. intros H.
  apply andb_prop in H as [H1 H2]. rewrite (IH H2), orb_false_r.
  destruct (Ascii.eqb "." c) eqn:E; [|reflexivity].
  apply Ascii.eqb_eq in E. subst c. discriminate.
Qed.

Lemma appendInt_decimal x : 0 <= x < two63 ->
  exists ds, GoTime.appendInt x 0 = ds /\ ds <> "" /\ Str.all_digits ds = true /\
    digits_value ds = Some x.
Proof.
  intros Hx. unfold GoTime.appendInt, GoTime.pad_left.
  rewrite Z.abs_eq by lia.
  replace (x <? 0)%Z with false by (symmetry; apply Z.ltb_ge; lia).
  destruct (digits_fuel_shape 64 x "" ltac:(lia)) as (ds & E & Ha & Hne).
  rewrite E, StrFacts.append_empty_r. cbn [Nat.sub repeat String.concat String.append].
  exists ds. split; [reflexivity|]. split; [apply Hne; discriminate|].
  split; [exact Ha|]. unfold digits_value.
  rewrite <- (StrFacts.append_empty_r ds), <- E, digits_fuel_value; [reflexivity|].
  assert (Hp : two63 < 10 ^ Z.of_nat 64) by (apply Z.ltb_lt; reflexivity).
  lia.
Qed.

Lemma atoi_appendInt x : 0 <= x < two63 -> Atoi (GoTime.appendInt x 0) = Some x.
Proof.
  intros Hx. destruct (appendInt_decimal x Hx) as (ds & -> & Hne & _ & Hv).
  apply AtoiFacts.atoi_spec. exists ds, x. split; [exact Hne|]. split; [exact Hv|].
  left. split; [reflexivity|]. split; [reflexivity|]. lia.
Qed.

End VersionOrderFacts.

Module VersionExtras.

Import Version VersionOrderFacts.
Local Open Scope string_scope.

(** X1: no version is less than itself. *)
Theorem X1_lessthan_irreflexive v : LessThan v v = false.
Proof.
  apply lessthan_false. intros (pa & pb & Ha & Hb & H).
  rewrite Ha in Hb. injection Hb as <-. exact (version_lt_irrefl _ H).
Qed.

(** X2: [LessThan] is asymmetric and transitive. *)
Theorem X2_lessthan_asymmetric_transitive a b c :
  LessThan a b = true ->
  LessThan b a = false /\ (LessThan b c = true -> LessThan a c = true).
Proof.
  intros Hab. apply RunFacts.lessthan_spec in Hab as (pa & pb & Ha & Hb & H).
  split.
  - apply lessthan_false. intros (qb & qa & Hb' & Ha' & H').
    rewrite Ha in Ha'. rewrite Hb in Hb'. injection Ha' as <-. injection Hb' as <-.
    exact (version_lt_irrefl _ (version_lt_trans _ _ _ H H')).
  - intros Hbc. apply RunFacts.lessthan_spec in Hbc as (qb & pc & Hb' & Hc & H').
    rewrite Hb in Hb'. injection Hb' as <-.
    apply RunFacts.lessthan_spec. exists pa, pc. split; [exact Ha|]. split; [exact Hc|].
    exact (version_lt_trans _ _ _ H H').
Qed.

Lemma X2_witness :
  LessThan "1.2.3" "1.10.0" = true /\ LessThan "1.10.0" "2.0.0" = true /\
  LessThan "1.10.0" "1.2.3" = false /\ LessThan "1.2.3" "2.0.0" = true.
Proof.
  assert (H : LessThan "1.2.3" "1.10.0" = true) by reflexivity.
  destruct (X2_lessthan_asymmetric_transitive "1.2.3" "1.10.0" "2.0.0" H) as [H1 H2].
  split; [exact H|]. split; [reflexivity|]. split; [exact H1|]. apply H2. reflexivity.
Defined.

(** X3: on two versions that both parse, exactly one of [LessThan a b],
    [LessThan b a] and "same (major, minor, patch)" holds. *)
Theorem X3_lessthan_trichotomy a b pa pb :
  ParseSemver a = Some pa -> ParseSemver b = Some pb ->
  (LessThan a b = false /\ LessThan b a = false <-> pa = pb) /\
  (LessThan a b = false \/ LessThan b a = false).
Proof.
  intros Ha Hb.
  assert (Hab : LessThan a b = true <-> Spec.version_lt pa pb).
  { rewrite RunFacts.lessthan_spec. split.
    - intros (qa & qb & Ha' & Hb' & H). congruence.
    - intros H. eauto. }
  assert (Hba : LessThan b a = true <-> Spec.version_lt pb pa).
  { rewrite RunFacts.lessthan_spec. split.
    - intros (qb & qa & Hb' & Ha' & H). congruence.
    - intros H. eauto. }
  split.
  - split.
    + intros [H1 H2].
      destruct (version_lt_total pa pb) as [E|[E|E]]; [exact E| |].
      * apply Hab in E. congruence.
      * apply Hba in E. congruence.
    + intros <-. split.
      * apply not_true_is_false. intros E.
        apply Hab in E. exact (version_lt_irrefl _ E).
      * apply not_true_is_false. intros E.
        apply Hba in E. exact (version_lt_irrefl _ E).
  - destruct (bool_dec (LessThan a b) true) as [E1|E1]; [|left; exact (not_true_is_false _ E1)].
    right. apply not_true_is_false. intros E2.
    apply Hab in E1. apply Hba in E2.
    exact (version_lt_irrefl _ (version_lt_trans _ _ _ E1 E2)).
Qed.

Lemma X3_witness :
  ParseSemver "1.02.3" = Some (1, 2, 3) /\ ParseSemver "1.2.3" = Some (1, 2, 3) /\
  LessThan "1.02.3" "1.2.3" = false /\ LessThan "1.2.3" "1.02.3" = false.
Proof.
  assert (Ha : ParseSemver "1.02.3" = Some (1, 2, 3)) by reflexivity.
  assert (Hb : ParseSemver "1.2.3" = Some (1, 2, 3)) by reflexivity.
  destruct (X3_lessthan_trichotomy _ _ _ _ Ha Hb) as [[_ H] _].
  destruct (H eq_refl) as [H1 H2]. auto.
Defined.

(** X4: three non-negative 64-bit integers written in decimal and joined
    by dots parse back to themselves. *)
Theorem X4_parse_semver_printed a b c :
  0 <= a < two63 -> 0 <= b < two63 -> 0 <= c < two63 ->
  ParseSemver (GoTime.appendInt a 0 ++ "." ++ GoTime.appendInt b 0 ++ "."
               ++ GoTime.appendInt c 0) = Some (a, b, c).
Proof.
  intros Ha Hb Hc.
  pose proof (atoi_appendInt a Ha) as Aa. pose proof (atoi_appendInt b Hb) as Ab.
  pose proof (atoi_appendInt c Hc) as Ac.
  destruct (appendInt_decimal a Ha) as (da & Ea & Hna & Dga & _).
  destruct (appendInt_decimal b Hb) as (db & Eb & _ & Dgb & _).
  destruct (appendInt_decimal c Hc) as (dc & Ec & _ & Dgc & _).
  rewrite Ea, Eb, Ec in *.
  unfold ParseSemver.
  replace (String.eqb (da ++ "." ++ db ++ "." ++ dc) "") with false
    by (destruct da; [congruence|reflexivity]).
  change ("." ++ db ++ "." ++ dc) with (String "." (db ++ String "." dc)).
  rewrite (LedgerFacts.split_on_app_sep _ _ _ (all_digits_no_dot _ Dga)).
  rewrite (LedgerFacts.split_on_app_sep _ _ _ (all_digits_no_dot _ Dgb)).
  rewrite (LedgerFacts.split_on_nosep _ _ (all_digits_no_dot _ Dgc)).
  rewrite Aa, Ab, Ac. reflexivity.
Qed.

Lemma X4_witness :
  ParseSemver (GoTime.appendInt 1 0 ++ "." ++ GoTime.appendInt 40 0 ++ "."
               ++ GoTime.appendInt 9223372036854775807 0)
  = Some (1, 40, 9223372036854775807).
Proof.
  apply X4_parse_semver_printed; unfold two63; lia.
Defined.

End VersionExtras.

Module ConfigFacts.

Import Config.
Local Open Scope string_scope.

Lemma contains_cons sub c s :
  Str.contains sub s = true -> Str.contains sub (String c s) = true.
Proof.
  intros H. cbn [Str.contains]. destruct (Str.strip_prefix sub (String c s)); auto.
Qed.

Lemma contains_eq sub s :
  Str.contains sub s =
  match Str.strip_prefix sub s with
  | Some _ => true
  | None => match s with EmptyString => false | String _ s' => Str.contains sub s' end
  end.
Proof. destruct s; reflexivity. Qed.

Lemma contains_app_l sub x : Str.contains sub (sub ++ x) = true.
Proof. rewrite contains_eq, StrFacts.strip_prefix_app. reflexivity. Qed.

Lemma contains_none sub s :
  Str.contains sub s = false -> Str.strip_prefix sub s = None.
Proof. rewrite contains_eq. destruct (Str.strip_prefix sub s); [discriminate|auto]. Qed.

Lemma replace_fuel_contains old new fuel : forall s,
  (String.length s < fuel)%nat -> Str.contains old s = true ->
  Str.contains new (Str.replace_all_fuel fuel old new s) = true.
Proof.
  induction fuel as [|f IH]; intros s Hl Hc; [lia|].
  cbn [Str.replace_all_fuel].
  destruct (Str.strip_prefix old s) as [rest|] eqn:E; [apply contains_app_l|].
  destruct s as [|c s'].
  - cbn [Str.contains] in Hc. rewrite E in Hc. discriminate.
  - apply contains_cons, IH.
    + cbn [String.length] in Hl. lia.
    + cbn [Str.contains] in Hc. rewrite E in Hc. exact Hc.
Qed.

Lemma replace_fuel_none old new fuel : forall s,
  (String.length s < fuel)%nat -> Str.contains old s = false ->
  Str.replace_all_fuel fuel old new s = s.
Proof.
  induction fuel as [|f IH]; intros s Hl Hc; [lia|].
  cbn [Str.replace_all_fuel]. pose proof (contains_none _ _ Hc) as Hn. rewrite Hn.
  destruct s as [|c s']; [reflexivity|].
  cbn [Str.contains] in Hc. rewrite Hn in Hc.
  f_equal. apply IH; [cbn [String.length] in Hl; lia|exact Hc].
Qed.

Lemma length_app a b : String.length (a ++ b) = (String.length a + String.length b)%nat.
Proof. induction a as [|c a IH]; cbn; [reflexivity|]. rewrite IH. reflexivity. Qed.

Lemma replace_single pre post v : forall fuel,
  Str.contains_char "<" pre = false -> Str.contains "<version>" post = false ->
  (String.length (pre ++ "<version>" ++ post) < fuel)%nat ->
  Str.replace_all_fuel fuel "<version>" v (pre ++ "<version>" ++ post) = pre ++ v ++ post.
Proof.
  induction pre as [|c pre IH]; intros fuel Hp Hq Hl; (destruct fuel as [|f]; [lia|]).
  - cbn [Str.replace_all_fuel].
    change ("" ++ "<version>" ++ post) with ("<version>" ++ post).
    rewrite StrFacts.strip_prefix_app. change ("" ++ v ++ post) with (v ++ post).
    rewrite replace_fuel_none; [reflexivity| |exact Hq].
    cbn [String.append String.length] in Hl. lia.
  - cbn [Str.contains_char] in Hp. apply orb_false_iff in Hp as [Hc Hp].
    cbn [Str.replace_all_fuel].
    replace (Str.strip_prefix "<version>" (String c pre ++ "<version>" ++ post))
      with (@None string)
      by (cbn [String.append Str.strip_prefix]; rewrite Hc; reflexivity).
    cbn [String.append]. f_equal. apply IH; [exact Hp|exact Hq|].
    cbn [String.append String.length] in Hl |- *. lia.
Qed.

Lemma las_inj a b : list_ascii_of_string a = list_ascii_of_string b -> a = b.
Proof.
  intros H. rewrite <- (string_of_list_ascii_of_string a),
    <- (string_of_list_ascii_of_string b), H. reflexivity.
Qed.

Lemma app_cancel pre post x y : pre ++ x ++ post = pre ++ y ++ post -> x = y.
Proof.
  intros H. apply (f_equal list_ascii_of_string) in H.
  rewrite !StrFacts.las_app in H. apply app_inv_head in H. apply app_inv_tail in H.
  apply las_inj, H.
Qed.

End ConfigFacts.

Module ConfigExtras.

Import Config ConfigFacts.
Local Open Scope string_scope.

(** X5: with a configuration that [Validate] accepts, the file name
    generated for any version contains that version. *)
Theorem X5_validated_name_contains_version c v :
  Validate c = None -> Str.contains v (GenerateFileName c v) = true.
Proof.
  unfold Validate. intros H.
  destruct (String.eqb (DownloadDir c) ""); [discriminate|].
  destruct (String.eqb (FileNamePattern c) ""); [discriminate|].
  destruct (Str.contains "<version>" (FileNamePattern c)) eqn:E; [|discriminate].
  unfold GenerateFileName, Str.replace_all. apply replace_fuel_contains; [lia|exact E].
Qed.

Lemma X5_witness :
  Validate Examples.cfg = None /\
  Str.contains "1.4.5" (GenerateFileName Examples.cfg "1.4.5") = true.
Proof.
  assert (H : Validate Examples.cfg = None) by reflexivity.
  split; [exact H|]. exact (X5_validated_name_contains_version _ "1.4.5" H).
Defined.

(** X6: a pattern without the [<version>] placeholder generates the
    pattern itself for every version, and [Validate] rejects any
    configuration with such a pattern. *)
Theorem X6_pattern_without_placeholder c v :
  Str.contains "<version>" (FileNamePattern c) = false ->
  GenerateFileName c v = FileNamePattern c /\ Validate c <> None.
Proof.
  intros H. split.
  - unfold GenerateFileName, Str.replace_all. apply replace_fuel_none; [lia|exact H].
  - unfold Validate. rewrite H. cbn [negb].
    destruct (String.eqb (DownloadDir c) ""); [discriminate|].
    destruct (String.eqb (FileNamePattern c) ""); discriminate.
Qed.

Lemma X6_witness :
  GenerateFileName (mkConfig "/d" "Cursor.AppImage" "/d/l" "/d/log") "1.4.5"
    = "Cursor.AppImage" /\
  Validate (mkConfig "/d" "Cursor.AppImage" "/d/l" "/d/log") <> None.
Proof. apply X6_pattern_without_placeholder. reflexivity. Defined.

(** X7: for a pattern [pre ++ "<version>" ++ post] whose prefix has no
    ['<'] and whose suffix has no placeholder, the generated name is
    [pre ++ v ++ post], so different versions get different names. *)
Theorem X7_single_placeholder_name c pre post v :
  FileNamePattern c = pre ++ "<version>" ++ post ->
  Str.contains_char "<" pre = false -> Str.contains "<version>" post = false ->
  GenerateFileName c v = pre ++ v ++ post /\
  (forall v', GenerateFileName c v' = GenerateFileName c v -> v' = v).
Proof.
  intros Hc Hp Hq.
  assert (G : forall x, GenerateFileName c x = pre ++ x ++ post).
  { intros x. unfold GenerateFileName, Str.replace_all. rewrite Hc.
    apply replace_single; [exact Hp|exact Hq|lia]. }
  split; [apply G|]. intros v' E. rewrite !G in E. exact (app_cancel _ _ _ _ E).
Qed.

Lemma X7_witness :
  GenerateFileName NewConfig "1.4.5" = "Cursor-1.4.5-x86_64.AppImage" /\
  (forall v', GenerateFileName NewConfig v' = GenerateFileName NewConfig "1.4.5" ->
              v' = "1.4.5").
Proof.
  apply (X7_single_placeholder_name NewConfig "Cursor-" "-x86_64.AppImage");
    reflexivity.
Defined.

End ConfigExtras.

Module ExpandFacts.

Import Fs Config ConfigPaths.
Local Open Scope string_scope.

Lemma expand_cases home p :
  (Str.strip_prefix "~" p = None /\ expandHomeDir home p = Ok p) \/
  (exists rest, p = String "~" rest /\
     expandHomeDir home p = match home with
                            | Error e => Error e
                            | Ok h => Ok (Path.Join h rest)
                            end).
Proof.
  destruct p as [|c rest]; [left; split; reflexivity|].
  destruct c as [[] [] [] [] [] [] [] []];
    first [left; split; reflexivity | right; exists rest; split; reflexivity].
Qed.

Lemma expand_plain home p :
  Str.strip_prefix "~" p = None -> expandHomeDir home p = Ok p.
Proof.
  intros H. destruct (expand_cases home p) as [[_ E]|(rest & -> & _)];
    [exact E|discriminate].
Qed.

Lemma abs_no_tilde p : Path.is_abs p = true -> Str.strip_prefix "~" p = None.
Proof.
  destruct p as [|c s]; [discriminate|].
  destruct c as [[] [] [] [] [] [] [] []]; first [discriminate | reflexivity].
Qed.

Lemma clean_abs p : Path.is_abs p = true -> Path.is_abs (Path.Clean p) = true.
Proof. intros H. unfold Path.Clean. rewrite H. reflexivity. Qed.

Lemma join_abs h r : Path.is_abs h = true -> Path.is_abs (Path.Join h r) = true.
Proof.
  intros H. destruct h as [|c h']; [discriminate|].
  unfold Path.Join. cbn [String.eqb].
  destruct (String.eqb r ""); apply clean_abs; exact H.
Qed.

Lemma expand_abs h p : Path.is_abs h = true ->
  exists p', expandHomeDir (Ok h) p = Ok p' /\ Str.strip_prefix "~" p' = None /\
    (Str.strip_prefix "~" p = None -> p' = p).
Proof.
  intros H. destruct (expand_cases (Ok h) p) as [[Hn E]|(rest & -> & E)].
  - exists p. auto.
  - exists (Path.Join h rest). split; [exact E|]. split; [|discriminate].
    apply abs_no_tilde, join_abs, H.
Qed.

End ExpandFacts.

Module ExpandExtras.

Import Fs Config ConfigPaths ExpandFacts.
Local Open Scope string_scope.

(** X8: with an absolute home directory, [ExpandPaths] succeeds, keeps the
    file name pattern, leaves none of the three paths starting with ['~'],
    and a second call changes nothing. *)
Theorem X8_expand_paths_idempotent h c :
  Path.is_abs h = true ->
  let '(c', r) := ExpandPaths (Ok h) c in
  r = Ok tt /\ FileNamePattern c' = FileNamePattern c /\
  Str.strip_prefix "~" (DownloadDir c') = None /\
  Str.strip_prefix "~" (LatestSymlink c') = None /\
  Str.strip_prefix "~" (LedgerPath c') = None /\
  ExpandPaths (Ok h) c' = (c', Ok tt).
Proof.
  intros H. destruct c as [d pat l g].
  destruct (expand_abs h d H) as (d' & Ed & Nd & _).
  destruct (expand_abs h l H) as (l' & El & Nl & _).
  destruct (expand_abs h g H) as (g' & Eg & Ng & _).
  unfold ExpandPaths. cbn [DownloadDir LatestSymlink LedgerPath FileNamePattern].
  rewrite Ed, El, Eg. cbn [DownloadDir LatestSymlink LedgerPath FileNamePattern].
  split; [reflexivity|]. split; [reflexivity|].
  split; [exact Nd|]. split; [exact Nl|]. split; [exact Ng|].
  rewrite (expand_plain _ _ Nd), (expand_plain _ _ Nl), (expand_plain _ _ Ng).
  reflexivity.
Qed.

Lemma X8_witness :
  Path.is_abs "/home/u" = true /\
  ExpandPaths (Ok "/home/u") NewConfig = (Examples.cfg, Ok tt) /\
  (let '(c', r) := ExpandPaths (Ok "/home/u") NewConfig in
   r = Ok tt /\ FileNamePattern c' = FileNamePattern NewConfig /\
   Str.strip_prefix "~" (DownloadDir c') = None /\
   Str.strip_prefix "~" (LatestSymlink c') = None /\
   Str.strip_prefix "~" (LedgerPath c') = None /\
   ExpandPaths (Ok "/home/u") c' = (c', Ok tt)).
Proof.
  assert (H : Path.is_abs "/home/u" = true) by reflexivity.
  split; [exact H|]. split; [vm_compute; reflexivity|].
  exact (X8_expand_paths_idempotent "/home/u" NewConfig H).
Defined.

(** X9: when the home directory cannot be determined, [ExpandPaths]
    succeeds exactly when none of the three paths starts with ['~'], and
    then leaves the configuration as it was. *)
Theorem X9_expand_paths_without_home e c :
  (snd (ExpandPaths (Error e) c) = Ok tt <->
   Str.strip_prefix "~" (DownloadDir c) = None /\
   Str.strip_prefix "~" (LatestSymlink c) = None /\
   Str.strip_prefix "~" (LedgerPath c) = None) /\
  (snd (ExpandPaths (Error e) c) = Ok tt -> fst (ExpandPaths (Error e) c) = c).
Proof.
  destruct c as [d pat l g]. unfold ExpandPaths.
  cbn [DownloadDir LatestSymlink LedgerPath FileNamePattern].
  destruct (expand_cases (Error e) d) as [[Nd Ed]|(rd & -> & Ed)]; rewrite Ed;
    [|cbn [snd]; split; [split; [discriminate|intros (H & _); discriminate]|discriminate]].
  destruct (expand_cases (Error e) l) as [[Nl El]|(rl & -> & El)]; rewrite El;
    [|cbn [snd]; split; [split; [discriminate|intros (_ & H & _); discriminate]|discriminate]].
  destruct (expand_cases (Error e) g) as [[Ng Eg]|(rg & -> & Eg)]; rewrite Eg;
    [|cbn [snd]; split; [split; [discriminate|intros (_ & _ & H); discriminate]|discriminate]].
  cbn [snd fst]. split; [tauto|reflexivity].
Qed.

Lemma X9_witness :
  snd (ExpandPaths (Error "$HOME is not defined") Examples.cfg) = Ok tt /\
  fst (ExpandPaths (Error "$HOME is not defined") Examples.cfg) = Examples.cfg /\
  snd (ExpandPaths (Error "$HOME is not defined") NewConfig) <> Ok tt.
Proof.
  assert (H : snd (ExpandPaths (Error "$HOME is not defined") Examples.cfg) = Ok tt)
    by (vm_compute; reflexivity).
  split; [exact H|]. split.
  - exact (proj2 (X9_expand_paths_without_home "$HOME is not defined" Examples.cfg) H).
  - intros Hn.
    destruct (proj1 (proj1 (X9_expand_paths_without_home "$HOME is not defined" NewConfig)) Hn)
      as [Hd _].
    discriminate Hd.
Defined.

End ExpandExtras.

Module FsFacts.

Import Fs.
Local Open Scope string_scope.

Lemma lookup_clean w a b : Path.Clean a = Path.Clean b -> lookup w a = lookup w b.
Proof. unfold lookup. intros ->. reflexivity. Qed.

Lemma follow_not_link n : forall w p q,
  follow n w p = OOk q -> forall t, lookup w q <> Some (NLink t).
Proof.
  induction n as [|n IH]; intros w p q H t; cbn [follow] in H;
    destruct (lookup w p) as [[d| |t']|] eqn:E;
    try (injection H as <-; rewrite E; discriminate).
  - discriminate.
  - exact (IH _ _ _ H t).
Qed.

Lemma follow_set n : forall w p q nd,
  follow n w p = OOk q -> (forall t, nd <> NLink t) ->
  follow n (set w q nd) p = OOk q.
Proof.
  induction n as [|n IH]; intros w p q nd H Hnd;
    pose proof (follow_not_link _ _ _ _ H) as Hq;
    cbn [follow] in H |- *; rewrite AppendFacts.lookup_set;
    destruct (lookup w p) as [[d| |t']|] eqn:E;
    try (injection H as <-; rewrite String.eqb_refl;
         destruct nd as [d'| |t]; [reflexivity|reflexivity|destruct (Hnd t eq_refl)]).
  - discriminate.
  - destruct (String.eqb_spec (Path.Clean p) (Path.Clean q)) as [Ec|Ec].
    + rewrite (lookup_clean w q p) in Hq by congruence. destruct (Hq t' E).
    + exact (IH _ _ _ _ H Hnd).
Qed.

Lemma write_file_effect w p d w' :
  write_file w p d = OOk w' ->
  exists q, follow max_links w p = OOk q /\ w' = set w q (NFile d).
Proof.
  unfold write_file, open_for_write.
  destruct (follow max_links w p) as [q|e]; [|discriminate].
  destruct (lookup w q) as [[d0| |t]|];
    [|discriminate| |]; try (destruct (is_dir_at w (Path.Dir q)); [|discriminate]);
    intros H; injection H as <-; eauto.
Qed.

(** What a write leaves at the written path reads back. *)
Lemma write_file_read w p d w' :
  write_file w p d = OOk w' ->
  read_file w' p = OOk d /\ stat w' p = OOk (info_of (NFile d)).
Proof.
  intros H. destruct (write_file_effect _ _ _ _ H) as (q & F & ->).
  assert (F' : follow max_links (set w q (NFile d)) p = OOk q)
    by (apply follow_set; [exact F|discriminate]).
  unfold read_file, stat, lstat. rewrite F', AppendFacts.lookup_set, String.eqb_refl.
  split; reflexivity.
Qed.


(** [w'] keeps every node of [w]; what it adds are directories. *)
Definition grows (w w' : World) : Prop :=
  (forall q n, lookup w q = Some n -> lookup w' q = Some n) /\
  (forall q n, lookup w' q = Some n -> lookup w q = Some n \/ n = NDir).

Lemma grows_refl w : grows w w.
Proof. split; auto. Qed.

Lemma grows_trans w1 w2 w3 : grows w1 w2 -> grows w2 w3 -> grows w1 w3.
Proof.
  intros [A1 B1] [A2 B2]. split; [auto|].
  intros q n H. destruct (B2 q n H) as [H'|H']; [exact (B1 q n H')|auto].
Qed.

Lemma mkdir_grows w p w' : mkdir w p = OOk w' -> grows w w'.
Proof.
  unfold mkdir. destruct (lookup w p) eqn:L; [discriminate|].
  destruct (is_dir_at w (Path.Dir p)); [|discriminate]. intros H; injection H as <-.
  split; intros q n Hq; rewrite AppendFacts.lookup_set in *;
    destruct (String.eqb_spec (Path.Clean q) (Path.Clean p)) as [E|E]; auto.
  - rewrite (lookup_clean w q p E), L in Hq. discriminate.
  - injection Hq as <-. auto.
Qed.

Lemma mkdir_all_fuel_grows fuel : forall w p w',
  mkdir_all_fuel fuel w p = OOk w' -> grows w w'.
Proof.
  induction fuel as [|f IH]; intros w p w' H; cbn [mkdir_all_fuel] in H;
    (destruct (stat w p) as [fi|e];
     [destruct (fi_isdir fi); [injection H as <-; apply grows_refl|discriminate]|]);
    destruct (0 <? String.length (mkdir_parent p))%nat;
    try discriminate.
  - destruct (mkdir w p) as [w2|e2] eqn:M; [injection H as <-; exact (mkdir_grows _ _ _ M)|].
    destruct (lstat w p) as [fi|e3]; [|discriminate].
    destruct (fi_isdir fi); [injection H as <-; apply grows_refl|discriminate].
  - destruct (mkdir_all_fuel f w (mkdir_parent p)) as [w1|e1] eqn:W1; [|discriminate].
    apply IH in W1. apply (grows_trans _ _ _ W1).
    destruct (mkdir w1 p) as [w2|e2] eqn:M; [injection H as <-; exact (mkdir_grows _ _ _ M)|].
    destruct (lstat w1 p) as [fi|e3]; [|discriminate].
    destruct (fi_isdir fi); [injection H as <-; apply grows_refl|discriminate].
  - destruct (mkdir w p) as [w2|e2] eqn:M; [injection H as <-; exact (mkdir_grows _ _ _ M)|].
    destruct (lstat w p) as [fi|e3]; [|discriminate].
    destruct (fi_isdir fi); [injection H as <-; apply grows_refl|discriminate].
Qed.

Lemma mkdir_all_grows w p w' : mkdir_all w p = OOk w' -> grows w w'.
Proof. apply mkdir_all_fuel_grows. Qed.

Lemma append_file_effect w p d w' :
  append_file w p d = OOk w' ->
  exists q,
    (forall x, Path.Clean x <> Path.Clean q -> lookup w' x = lookup w x) /\
    ((lookup w q = None /\ lookup w' q = Some (NFile d)) \/
     (exists c, lookup w q = Some (NFile c) /\ lookup w' q = Some (NFile (c ++ d)))).
Proof.
  unfold append_file, open_for_write.
  destruct (follow max_links w p) as [q|e] eqn:F; [|discriminate].
  pose proof (follow_not_link _ _ _ _ F) as Hq.
  destruct (lookup w q) as [[d0| |t]|] eqn:L.
  - intros H; injection H as <-. exists q.
    split; [intros x Hx; rewrite AppendFacts.lookup_set;
            destruct (String.eqb_spec (Path.Clean x) (Path.Clean q)); [contradiction|reflexivity]|].
    right. exists d0. split; [exact L|].
    rewrite AppendFacts.lookup_set, String.eqb_refl. reflexivity.
  - discriminate.
  - destruct (Hq t eq_refl).
  - destruct (is_dir_at w (Path.Dir q)); [|discriminate].
    intros H; injection H as <-. exists q.
    split; [intros x Hx; rewrite AppendFacts.lookup_set;
            destruct (String.eqb_spec (Path.Clean x) (Path.Clean q)); [contradiction|reflexivity]|].
    left. split; [exact L|].
    rewrite AppendFacts.lookup_set, String.eqb_refl. reflexivity.
Qed.

End FsFacts.

Module LedgerExtraFacts.

Import Fs Ledger.
Local Open Scope string_scope.

Lemma append_each_read path w es :
  lookup w path = None ->
  lookup w (Path.Dir path) = Some NDir ->
  Forall (fun e => Spec.entry_ok e = true) es ->
  exists w',
    Spec.append_each path w es = (Ok tt, w') /\ ReadAll path w' = Ok (map Spec.truncated es).
Proof.
  intros Hn Hd Hok.
  assert (Hne : Path.Clean (Path.Dir path) <> Path.Clean path).
  { intros E. unfold lookup in Hn, Hd. rewrite E in Hd. congruence. }
  destruct es as [|e es].
  - exists w. split; [reflexivity|]. apply AppendFacts.read_all_none, Hn.
  - cbn [Spec.append_each]. rewrite (AppendFacts.Append_new path w e Hn Hd).
    cbv beta iota.
    destruct (AppendFacts.append_each_file path es
                (set w path (NFile (format_line e))) (format_line e) Hne)
      as (w' & H1 & H2).
    + rewrite AppendFacts.lookup_set.
      destruct (String.eqb_spec (Path.Clean (Path.Dir path)) (Path.Clean path));
        [contradiction|exact Hd].
    + rewrite AppendFacts.lookup_set, String.eqb_refl. reflexivity.
    + exists w'. split; [exact H1|].
      change (format_line e ++ fold_right String.append "" (map format_line es))
        with (fold_right String.append "" (map format_line (e :: es))) in H2.
      rewrite (AppendFacts.read_all_file _ _ _ H2), AppendFacts.concat_lines.
      destruct (LineFacts.read_lines _ Hok) as [Ht Hr]. rewrite Ht, Hr. reflexivity.
Qed.

Lemma filter_truncated id es :
  filter (fun entry => String.eqb (InternalID entry) id) (map Spec.truncated es) =
  map Spec.truncated (filter (fun entry => String.eqb (InternalID entry) id) es).
Proof.
  induction es as [|e es IH]; [reflexivity|]. cbn [map filter].
  change (InternalID (Spec.truncated e)) with (InternalID e).
  destruct (String.eqb (InternalID e) id); cbn [map]; rewrite IH; reflexivity.
Qed.

End LedgerExtraFacts.

Module LedgerExtras.

Import Fs Ledger LedgerExtraFacts FsFacts.
Local Open Scope string_scope.

(** X10: after entries are appended one by one to an absent ledger whose
    directory exists, [FindByInternalID id] returns exactly the appended
    entries with that internal id, in append order, as they read back
    (times in UTC, whole seconds). *)
Theorem X10_find_by_internal_id_after_appends path w es id :
  lookup w path = None ->
  lookup w (Path.Dir path) = Some NDir ->
  Forall (fun e => Spec.entry_ok e = true) es ->
  exists w',
    Spec.append_each path w es = (Ok tt, w') /\
    FindByInternalID path w' id =
      Ok (map Spec.truncated (filter (fun e => String.eqb (InternalID e) id) es)).
Proof.
  intros Hn Hd Hok. destruct (append_each_read path w es Hn Hd Hok) as (w' & H1 & H2).
  exists w'. split; [exact H1|].
  unfold FindByInternalID, FindByInternalID_with. fold (ReadAll path w'). rewrite H2.
  rewrite filter_truncated. reflexivity.
Qed.

Lemma X10_witness :
  exists w',
    Spec.append_each Examples.ledger_path Examples.ledger_dir_world Examples.tagged_entries
      = (Ok tt, w') /\
    FindByInternalID Examples.ledger_path w' "a1" =
      Ok (map Spec.truncated
            (filter (fun e => String.eqb (InternalID e) "a1") Examples.tagged_entries)).
Proof.
  apply X10_find_by_internal_id_after_appends.
  - vm_compute. reflexivity.
  - vm_compute. reflexivity.
  - repeat apply Forall_cons; try apply Forall_nil; vm_compute; reflexivity.
Defined.



(** X12: [Append] never removes or rewrites anything, whether it succeeds
    or fails: every node that existed is still there unchanged, except at
    most one regular file which gets the formatted line added at its end;
    every new node is a directory or a file holding just that line. *)
Theorem X12_append_only_extends path w e :
  let w' := snd (Append path w e) in
  (forall q n, lookup w q = Some n ->
     lookup w' q = Some n \/
     exists c, n = NFile c /\ lookup w' q = Some (NFile (c ++ format_line e))) /\
  (forall q n, lookup w q = None -> lookup w' q = Some n ->
     n = NDir \/ n = NFile (format_line e)).
Proof.
  unfold Append.
  destruct (mkdir_all w (Path.Dir path)) as [w1|err] eqn:M; cbn [snd].
  2: { split; [auto|]. intros q n H1 H2. congruence. }
  destruct (mkdir_all_grows _ _ _ M) as [G1 G2].
  destruct (append_file w1 path (format_line e)) as [w2|err] eqn:A; cbn [snd].
  2: { split; [auto|]. intros q n H1 H2.
       destruct (G2 q n H2) as [H3|H3]; [congruence|auto]. }
  destruct (append_file_effect _ _ _ _ A) as (q0 & Hother & Hq0).
  split.
  - intros q n H. apply G1 in H.
    destruct (String.eqb_spec (Path.Clean q) (Path.Clean q0)) as [E|E].
    + rewrite (lookup_clean w1 q q0 E) in H. rewrite (lookup_clean w2 q q0 E).
      destruct Hq0 as [[H1 H2]|(c & H1 & H2)]; [congruence|].
      rewrite H1 in H. injection H as <-. right. exists c. auto.
    + left. rewrite (Hother q E). exact H.
  - intros q n H Hn.
    destruct (String.eqb_spec (Path.Clean q) (Path.Clean q0)) as [E|E].
    + rewrite (lookup_clean w2 q q0 E) in Hn.
      destruct Hq0 as [[H1 H2]|(c & H1 & H2)].
      * rewrite H2 in Hn. injection Hn as <-. auto.
      * rewrite <- (lookup_clean w1 q q0 E) in H1.
        destruct (G2 q _ H1) as [H3|H3]; [congruence|discriminate].
    + rewrite (Hother q E) in Hn. destruct (G2 q n Hn) as [H3|H3]; [congruence|auto].
Qed.

Lemma X12_witness :
  lookup (snd (Append Examples.ledger_path (Examples.ledger_world "old") Examples.entry_update))
    Examples.ledger_path = Some (NFile ("old" ++ format_line Examples.entry_update)) /\
  (lookup (snd (Append Examples.ledger_path (Examples.ledger_world "old")
                  Examples.entry_update)) "/var" = Some NDir \/
   exists c, NDir = NFile c /\
     lookup (snd (Append Examples.ledger_path (Examples.ledger_world "old")
                    Examples.entry_update)) "/var"
       = Some (NFile (c ++ format_line Examples.entry_update))).
Proof.
  destruct (X12_append_only_extends Examples.ledger_path (Examples.ledger_world "old")
              Examples.entry_update) as [H1 _].
  split; [vm_compute; reflexivity|].
  apply H1. vm_compute. reflexivity.
Defined.

End LedgerExtras.

Module UpdaterFacts.

Import Fs Updater FsFacts.
Local Open Scope string_scope.

(** The outcome of [GetRemoteVersion], which reads no state. *)
Definition remote_of (env : Env) (u : Updater) : result string :=
  match head env (downloadURL u) with
  | Error e => Error ("failed to check redirect: " ++ e)
  | Ok finalURL =>
      let v := Version.SemverFromName (Path.Base finalURL) in
      if String.eqb v "" then Error ("could not extract version from URL: " ++ finalURL)
      else Ok v
  end.

Lemma get_remote_eq env u s :
  GetRemoteVersion env u s =
  (remote_of env u, mkSt (fs s) (HEAD (downloadURL u) :: net s) (stdout s) (stderr s)).
Proof.
  unfold GetRemoteVersion, remote_of, bind, request, ret.
  destruct (head env (downloadURL u)); [|reflexivity].
  destruct (String.eqb _ ""); reflexivity.
Qed.

Lemma download_cached env u s v :
  remote_of env u = Ok v ->
  (exists fi, stat (fs s) (getDownloadPath u (GenerateFileName u v)) = OOk fi) ->
  DownloadCursor env u s =
  (Ok (GenerateFileName u v), mkSt (fs s) (HEAD (downloadURL u) :: net s) (stdout s) (stderr s)).
Proof.
  intros Hr (fi & Hs). unfold DownloadCursor, bind at 1. rewrite get_remote_eq, Hr.
  unfold bind, world, ret. cbn [fs]. rewrite Hs. reflexivity.
Qed.

Ltac split_hyp H :=
  repeat (cbn [fs net stdout stderr] in H;
          match type of H with
          | context [match ?x with _ => _ end] =>
              lazymatch x with
              | match _ with _ => _ end => fail
              | _ =>
                  lazymatch type of x with
                  | prod _ _ => fail
                  | _ => destruct x eqn:?; try discriminate H
                  end
              end
          end).

Lemma download_eof env u s r s' :
  DownloadCursor env u s = (r, s') ->
  r = Error "failed to write file: unexpected EOF" ->
  exists v, remote_of env u = Ok v /\
    exists fi, stat (fs s') (getDownloadPath u (GenerateFileName u v)) = OOk fi.
Proof.
  intros H ->. unfold DownloadCursor, bind in H. rewrite get_remote_eq in H.
  destruct (remote_of env u) as [v|e] eqn:Hv; cbn [fs net stdout stderr] in H; [|discriminate].
  unfold ensureDirectories, world, request, ret, put_world, bind in H.
  split_hyp H; try discriminate.
  all: injection H as <-; exists v; split; [reflexivity|].
  all: eexists; apply (proj2 (write_file_read _ _ _ _ ltac:(eassumption))).
Qed.

Lemma ensure_effect u s r s' :
  ensureDirectories u s = (r, s') ->
  grows (fs s) (fs s') /\ net s' = net s /\ stdout s' = stdout s /\ stderr s' = stderr s.
Proof.
  intros H. unfold ensureDirectories, world, put_world, ret, bind in H.
  split_hyp H; injection H as <- <-; cbn [fs net stdout stderr];
    (split; [|repeat split]);
    repeat (eapply grows_trans; [eapply mkdir_all_grows; eassumption|]);
    apply grows_refl.
Qed.










End UpdaterFacts.

Module UpdaterExtras.

Import Fs Updater Cli FsFacts UpdaterFacts.
Local Open Scope string_scope.

(** X13: when [GetRemoteVersion] succeeds with [v], the HEAD request
    ended at a URL whose base name is exactly
    ["Cursor-" ++ v ++ "-x86_64.AppImage"], whatever naming pattern is
    configured, and [v] is one or more non-empty digit groups separated
    by dots.  The call makes that one HEAD request and changes nothing
    else. *)
Theorem X13_remote_version_from_final_url env u s v :
  fst (GetRemoteVersion env u s) = Ok v ->
  (exists finalURL, head env (downloadURL u) = Ok finalURL /\
                    Path.Base finalURL = SemverFacts.shape v) /\
  Version.dotted_digits v = true /\
  snd (GetRemoteVersion env u s) =
  mkSt (fs s) (HEAD (downloadURL u) :: net s) (stdout s) (stderr s).
Proof.
  rewrite get_remote_eq. cbn [fst snd]. unfold remote_of.
  destruct (head env (downloadURL u)) as [fin|e]; [|discriminate].
  destruct (String.eqb_spec (Version.SemverFromName (Path.Base fin)) "") as [E|E];
    [discriminate|].
  intros Hv. injection Hv as <-.
  destruct (SemverFacts.semver_nonempty _ E) as [H1 H2].
  split; [exists fin; split; [reflexivity|exact H1]|split; [exact H2|reflexivity]].
Qed.

Lemma X13_witness :
  fst (GetRemoteVersion Examples.env Examples.up (Examples.start Examples.home)) = Ok "1.4.5" /\
  (exists finalURL, head Examples.env (downloadURL Examples.up) = Ok finalURL /\
                    Path.Base finalURL = SemverFacts.shape "1.4.5") /\
  Version.dotted_digits "1.4.5" = true /\
  snd (GetRemoteVersion Examples.env Examples.up (Examples.start Examples.home)) =
  mkSt Examples.home [HEAD (downloadURL Examples.up)] [] [].
Proof.
  split; [vm_compute; reflexivity|].
  apply (X13_remote_version_from_final_url Examples.env Examples.up
           (Examples.start Examples.home) "1.4.5").
  vm_compute. reflexivity.
Defined.

(** X14: when the artifact named for the remote version already exists
    at the download path, [DownloadCursor] returns its file name after the
    single HEAD request of the version check: no GET, and the file system
    and the output are unchanged. *)
Theorem X14_cached_artifact_not_downloaded env u s v fi :
  fst (GetRemoteVersion env u s) = Ok v ->
  stat (fs s) (getDownloadPath u (GenerateFileName u v)) = OOk fi ->
  DownloadCursor env u s =
  (Ok (GenerateFileName u v),
   mkSt (fs s) (HEAD (downloadURL u) :: net s) (stdout s) (stderr s)).
Proof.
  intros Hr Hs. rewrite get_remote_eq in Hr. apply download_cached; [exact Hr|].
  exists fi. exact Hs.
Qed.

Lemma X14_witness :
  let s0 := Examples.start (Examples.installed "1.4.5") in
  fst (GetRemoteVersion Examples.env Examples.up s0) = Ok "1.4.5" /\
  stat (fs s0) (getDownloadPath Examples.up (GenerateFileName Examples.up "1.4.5"))
    = OOk (info_of (NFile "ELF-1.4.5")) /\
  DownloadCursor Examples.env Examples.up s0 =
  (Ok (GenerateFileName Examples.up "1.4.5"),
   mkSt (fs s0) (HEAD (downloadURL Examples.up) :: net s0) (stdout s0) (stderr s0)).
Proof.
  cbv zeta. split; [vm_compute; reflexivity|]. split; [vm_compute; reflexivity|].
  apply (X14_cached_artifact_not_downloaded _ _ _ _ (info_of (NFile "ELF-1.4.5")));
    vm_compute; reflexivity.
Defined.

(** X15: a download whose body stream breaks fails with
    "failed to write file: unexpected EOF" but leaves the partial file at
    the download path; the next [DownloadCursor] (same server answers)
    then finds that file and returns its name as a finished download,
    with one HEAD request and no GET. *)
Theorem X15_truncated_download_reused env u s :
  fst (DownloadCursor env u s) = Error "failed to write file: unexpected EOF" ->
  let s1 := snd (DownloadCursor env u s) in
  exists v,
    fst (GetRemoteVersion env u s1) = Ok v /\
    DownloadCursor env u s1 =
    (Ok (GenerateFileName u v),
     mkSt (fs s1) (HEAD (downloadURL u) :: net s1) (stdout s1) (stderr s1)).
Proof.
  intros H. cbv zeta.
  destruct (download_eof env u s _ _ (surjective_pairing _) H) as (v & Hv & fi & Hs).
  exists v. split.
  - rewrite get_remote_eq. exact Hv.
  - apply download_cached; [exact Hv|]. exists fi. exact Hs.
Qed.

Lemma X15_witness :
  let s0 := Examples.start Examples.home in
  fst (DownloadCursor Examples.env_truncated Examples.up s0)
    = Error "failed to write file: unexpected EOF" /\
  let s1 := snd (DownloadCursor Examples.env_truncated Examples.up s0) in
  exists v,
    fst (GetRemoteVersion Examples.env_truncated Examples.up s1) = Ok v /\
    DownloadCursor Examples.env_truncated Examples.up s1 =
    (Ok (GenerateFileName Examples.up v),
     mkSt (fs s1) (HEAD (downloadURL Examples.up) :: net s1) (stdout s1) (stderr s1)).
Proof.
  cbv zeta. split; [vm_compute; reflexivity|].
  apply X15_truncated_download_reused. vm_compute. reflexivity.
Defined.







(** X19: [updateVersionFile] either writes [VERSION=<v>] and a newline
    to the version file of the download directory, read back as such,
    without a warning; or, when the file cannot be created, leaves the
    file system unchanged and emits one warning.  It makes no request
    and prints nothing on stdout. *)
Theorem X19_version_file_written_or_warned v cfg s :
  let s' := snd (updateVersionFile v cfg s) in
  net s' = net s /\ stdout s' = stdout s /\
  ((read_file (fs s') (Path.Join (Config.DownloadDir cfg) versionFile)
      = OOk ("VERSION=" ++ v ++ Ledger.lf) /\ stderr s' = stderr s) \/
   (fs s' = fs s /\ exists m, stderr s' = WVersionFileFailed m :: stderr s)).
Proof.
  cbv zeta. unfold updateVersionFile, bind, world.
  destruct (write_file (fs s) _ _) as [w'|e] eqn:E.
  - unfold put_world. cbn [snd fs net stdout stderr].
    split; [reflexivity|split; [reflexivity|left]].
    split; [exact (proj1 (write_file_read _ _ _ _ E))|reflexivity].
  - unfold warn. cbn [snd fs net stdout stderr].
    split; [reflexivity|split; [reflexivity|right]]. split; [reflexivity|eauto].
Qed.

(** X20: [ensureDirectories] only creates directories: every node of the
    file system is kept, every new node is a directory, and nothing is
    requested or printed, whether it succeeds or fails. *)
Theorem X20_ensure_directories_only_creates u s :
  let s' := snd (ensureDirectories u s) in
  grows (fs s) (fs s') /\ net s' = net s /\ stdout s' = stdout s /\ stderr s' = stderr s.
Proof.
  cbv zeta. exact (ensure_effect u s _ _ (surjective_pairing _)).
Qed.

End UpdaterExtras.
